(** * pampi: cluster picking and pipeline assembly

    A shallow embedding of [src/pipeline/pampi/picking.py] and of the
    pipeline entry point and filter stage of [src/pampi.py].

    Python [str] values are Rocq [string]s; a character is a code point
    below 256.  Python exceptions are values of [Exn]; a call that may
    raise returns a [PyResult]. *)

From Stdlib Require Import Ascii ZArith Lia.
From stdpp Require Import gmap strings list fin_maps pretty.

Local Open Scope char_scope.
Local Open Scope stdpp_scope.

#[local] Arguments String.append !_ _ / : simpl nomatch.
#[local] Arguments ascii_dec : simpl never.

(** ** Representation types

    The data classes of [pipeline.pampi.data] that [pampi.py] names:
    a format, for one sample or for several. *)

Inductive Format : Set := Clusters | Fasta | Fastq | PairedFastq.

Inductive RepType : Set :=
| SampleT (f : Format)
| MultipleT (f : Format).

#[global] Instance Format_eq_dec : EqDecision Format.
Proof. solve_decision. Defined.

#[global] Instance RepType_eq_dec : EqDecision RepType.
Proof. solve_decision. Defined.

(** ** Exceptions

    The exception classes that the embedded code raises or names.
    [TypeMismatch] is the assembly error of the pipeline compiler: the
    stage, the type carried to it, and the types the stage accepts. *)

Inductive Exn : Set :=
| ValueError
| RuntimeError
| CalledProcessError
| FileNotFoundError
| TypeError
| IndexError
| AttributeError
| SystemExit
| TypeMismatch (stage : string) (current : RepType) (accepted : list RepType).

#[global] Instance Exn_eq_dec : EqDecision Exn.
Proof. solve_decision. Defined.

Inductive PyResult (A : Type) : Type :=
| Return (a : A)
| Raise (e : Exn).
Arguments Return {A} a.
Arguments Raise {A} e.

#[global] Instance PyResult_ret : MRet PyResult := @Return.
#[global] Instance PyResult_bind : MBind PyResult := fun A B k r =>
  match r with
  | Return a => k a
  | Raise e => Raise e
  end.

(** A lazy Python iterator, as seen by a consumer that drains it: the
    items it yields, followed by the exception that ends it, if any. *)
Definition Stream (A : Type) : Type := (list A * option Exn)%type.

(** [list(it)]. *)
Definition drain {A} (s : Stream A) : PyResult (list A) :=
  match s.2 with
  | None => Return s.1
  | Some e => Raise e
  end.

(** ** Python string primitives *)

Module Str.

Definition newline : ascii := "010".
Definition tab : ascii := "009".

(** [str.isspace] on one code point below 256. *)
Definition isspace (c : ascii) : bool :=
  let n := nat_of_ascii c in
  ((9 <=? n)%nat && (n <=? 13)%nat)
  || ((28 <=? n)%nat && (n <=? 32)%nat)
  || (n =? 133)%nat || (n =? 160)%nat.

Fixpoint lstrip (s : string) : string :=
  match s with
  | EmptyString => EmptyString
  | String c s' => if isspace c then lstrip s' else s
  end.

Fixpoint rstrip (s : string) : string :=
  match s with
  | EmptyString => EmptyString
  | String c s' =>
      match rstrip s' with
      | EmptyString => if isspace c then EmptyString else String c EmptyString
      | r => String c r
      end
  end.

(** [str.strip] *)
Definition strip (s : string) : string := rstrip (lstrip s).

(** [bool(s)] *)
Definition truthy (s : string) : bool :=
  match s with
  | EmptyString => false
  | String _ _ => true
  end.

(** [s.startswith(p)] *)
Fixpoint startswith (p s : string) : bool :=
  match p, s with
  | EmptyString, _ => true
  | String a p', String b s' => if ascii_dec a b then startswith p' s' else false
  | String _ _, EmptyString => false
  end.

(** [sep.join(l)] *)
Fixpoint join (sep : string) (l : list string) : string :=
  match l with
  | [] => EmptyString
  | [x] => x
  | x :: l' => x +:+ sep +:+ join sep l'
  end.

(** [s.split(sep)] for a one-character separator. *)
Fixpoint split (sep : ascii) (s : string) : list string :=
  match s with
  | EmptyString => [EmptyString]
  | String c s' =>
      if ascii_dec c sep then EmptyString :: split sep s'
      else match split sep s' with
           | [] => [String c EmptyString]
           | x :: l => String c x :: l
           end
  end.

(** Iterating over a text file handle: the lines of the text, each
    with its terminating newline kept. *)
Fixpoint readlines (s : string) : list string :=
  match s with
  | EmptyString => []
  | String c s' =>
      if ascii_dec c newline then String c EmptyString :: readlines s'
      else match readlines s' with
           | [] => [String c EmptyString]
           | x :: l => String c x :: l
           end
  end.

(** [c in s] *)
Fixpoint contains (c : ascii) (s : string) : bool :=
  match s with
  | EmptyString => false
  | String x s' => if ascii_dec x c then true else contains c s'
  end.

End Str.

(** The texts ['\n'] and ['\t']. *)
Definition nl : string := String Str.newline EmptyString.
Definition tb : string := String Str.tab EmptyString.

(** ** The regular expression [>(.+?)\.\.\.]

    [until_dots] is the lazy group after its first character: it stops
    at the first position where three dots follow, and fails at a
    newline or at the end of the text. *)

Fixpoint until_dots (s : string) : option string :=
  if Str.startswith "..." s then Some EmptyString
  else match s with
       | EmptyString => None
       | String c s' =>
           if ascii_dec c Str.newline then None
           else String c <$> until_dots s'
       end.

(** A match that starts at the first character of [s]; the result is
    the group. *)
Definition match_here (s : string) : option string :=
  match s with
  | String g (String c s') =>
      if ascii_dec g ">" then
        if ascii_dec c Str.newline then None
        else String c <$> until_dots s'
      else None
  | _ => None
  end.

(** [findall]: the groups of all non-overlapping matches, left to
    right.  [skip] counts the characters of the last match that are
    still to be passed over. *)
Fixpoint findall_from (skip : nat) (s : string) : list string :=
  match s with
  | EmptyString => []
  | String _ s' =>
      match skip with
      | S k => findall_from k s'
      | O =>
          match match_here s with
          | Some g => g :: findall_from (String.length g + 3) s'
          | None => findall_from 0 s'
          end
      end
  end.

Definition SEQID (s : string) : list string := findall_from 0 s.

(** [l[0]] *)
Definition item0 {A} (l : list A) : PyResult A :=
  match l with
  | x :: _ => Return x
  | [] => Raise IndexError
  end.

(** ** picking.py: the cluster report parser *)

(** [[SEQID(line)[0] for line in cluster]] *)
Fixpoint seqids_of (cluster : list string) : PyResult (list string) :=
  match cluster with
  | [] => Return []
  | line :: rest =>
      x ← item0 (SEQID line);
      xs ← seqids_of rest;
      Return (x :: xs)
  end.

Definition transform_cluster (drop_empty : bool) (cluster : list string)
  : PyResult (option (list string)) :=
  seqids ← seqids_of cluster;
  Return (if drop_empty
          then (if (1 <? length seqids)%nat then Some seqids else None)
          else Some seqids).

(** [itertools.groupby] with a boolean key: maximal runs of equal key. *)
Fixpoint groupby {A} (key : A -> bool) (l : list A) : list (bool * list A) :=
  match l with
  | [] => []
  | x :: l' =>
      match groupby key l' with
      | (k, g) :: gs =>
          if Bool.eqb (key x) k then (k, x :: g) :: gs
          else (key x, [x]) :: (k, g) :: gs
      | [] => [(key x, [x])]
      end
  end.

(** [bool(x)] for [x : Optional[List[str]]]. *)
Definition truthy_cluster (x : option (list string)) : bool :=
  match x with
  | Some (_ :: _) => true
  | _ => false
  end.

(** [map(F(transform_cluster, drop_empty)) >> (filter, bool)] over the
    member groups: groups are transformed one at a time, on demand. *)
Fixpoint transform_all (drop_empty : bool) (groups : list (list string))
  : Stream (list string) :=
  match groups with
  | [] => ([], None)
  | g :: gs =>
      match transform_cluster drop_empty g with
      | Raise e => ([], Some e)
      | Return r =>
          let rest := transform_all drop_empty gs in
          (match r with
           | Some ids => if truthy_cluster r then ids :: rest.1 else rest.1
           | None => rest.1
           end, rest.2)
      end
  end.

Definition is_header (l : string) : bool := Str.startswith ">" l.

(** The groups of member lines: stripped, non-empty lines, grouped by
    [startswith('>')], header groups removed. *)
Definition member_groups (handle : list string) : list (list string) :=
  snd <$> filter (fun x => negb x.1 = true)
            (groupby is_header (filter (fun l => Str.truthy l = true) (Str.strip <$> handle))).

Definition parse_cdhit_clusters (drop_empty : bool) (handle : list string)
  : Stream (list string) :=
  transform_all drop_empty (member_groups handle).

(** ** Cluster reports, as the specification describes them

    A report is a list of blocks; a block is a header line followed by
    member lines; a member line carries its identifier between ['>']
    and ['...']. *)

(** The rest of an identifier, after its first character: no newline,
    and no three dots before the closing marker. *)
Fixpoint lazy_clean (t : string) : bool :=
  match t with
  | EmptyString => true
  | String c t' =>
      negb (Str.startswith "..." (t +:+ "..."))
      && (if ascii_dec c Str.newline then false else true)
      && lazy_clean t'
  end.

Definition valid_seqid (id : string) : bool :=
  match id with
  | EmptyString => false
  | String c t => (if ascii_dec c Str.newline then false else true) && lazy_clean t
  end.

Record Member := { pre : string; seqid : string; post : string }.

Definition member_line (m : Member) : string :=
  pre m +:+ ">" +:+ seqid m +:+ "..." +:+ post m.

(** Some text that is not blank and has no ['>'] comes before the
    marker, as the serial number and length do in a cd-hit report. *)
Definition wf_member (m : Member) : bool :=
  negb (Str.contains ">" (pre m))
  && Str.truthy (Str.lstrip (pre m))
  && valid_seqid (seqid m).

Record Block := { header : string; members : list Member }.

Definition wf_block (b : Block) : bool :=
  is_header (Str.strip (header b))
  && (if members b is [] then false else true)
  && forallb wf_member (members b).

Definition block_lines (b : Block) : list string :=
  header b :: (member_line <$> members b).

Definition report_lines (blocks : list Block) : list string :=
  blocks ≫= block_lines.

(** The member lines of a block as the parser sees them, stripped. *)
Definition stripped_members (b : Block) : list string :=
  (fun m => Str.strip (member_line m)) <$> members b.

Definition block_ids (b : Block) : list string := seqid <$> members b.

(** The drop-empty policy in the specification's words: with the policy
    set, a block of exactly one member is discarded. *)
Definition kept (drop_empty : bool) (ids : list string) : bool :=
  if drop_empty then negb (length ids =? 1)%nat else true.

(** A line that carries an identifier between ['>'] and ['...']. *)
Definition carries_identifier (l : string) : Prop :=
  exists a id b,
    l = a +:+ ">" +:+ id +:+ "..." +:+ b
    /\ id <> EmptyString /\ Str.contains Str.newline id = false.

(** A member line of the report: not blank, and not a header. *)
Definition is_member_line (l : string) : Prop :=
  Str.truthy (Str.strip l) = true /\ is_header (Str.strip l) = false.

(** ** The world outside the program

    Files with their text, directories, the random names drawn so far,
    and a trace of what the program did to its resources. *)

Inductive Event : Set :=
| EvAcquire (name : string)   (* [with sample:] entered *)
| EvRelease (name : string)   (* the sample is released *)
| EvParse (name : string)     (* [sample.parse()] *)
| EvRemove (path : string)    (* [os.remove(path)] *)
| EvInvoke (stage : string).  (* the function of a Map is called *)

Record World := {
  fs : gmap string string;
  dirs : gset string;
  rng : nat;
  trace : list Event
}.

Definition set_fs (m : gmap string string) (w : World) : World :=
  {| fs := m; dirs := dirs w; rng := rng w; trace := trace w |}.

Definition add_event (ev : Event) (w : World) : World :=
  {| fs := fs w; dirs := dirs w; rng := rng w; trace := trace w ++ [ev] |}.

Definition next_rng (w : World) : World :=
  {| fs := fs w; dirs := dirs w; rng := S (rng w); trace := trace w |}.

(** A sample resource: [pipeline.pampi.data] is not part of the
    sources; the fields are those its callers pass and read. *)
Record Sample := {
  name : string;
  files : list string;
  delete : bool;
  format : Format
}.

(** What the program cannot decide itself. *)
Record Env := {
  (** [shutil.which] *)
  which : string -> option string;
  (** [subprocess.run]: the exit status of the command and what it
      does to the files *)
  run : list string -> gmap string string -> Z * gmap string string;
  (** the random part of the [n]-th name drawn *)
  token : nat -> string;
  (** whether [open(path, 'w')] succeeds *)
  creatable : string -> bool;
  (** the truth value of each record that [sample.parse()] yields,
      taken to depend on the sample alone *)
  records : Sample -> list bool
}.

(** ** Computations: state and exceptions *)

Definition M (A : Type) : Type := World -> PyResult A * World.

#[global] Instance M_ret : MRet M := fun A a w => (Return a, w).

#[global] Instance M_bind : MBind M := fun A B k m w =>
  match m w with
  | (Return a, w') => k a w'
  | (Raise e, w') => (Raise e, w')
  end.

Definition raise {A} (e : Exn) : M A := fun w => (Raise e, w).

Definition lift {A} (r : PyResult A) : M A := fun w => (r, w).

Definition log (ev : Event) : M unit := fun w => (Return tt, add_event ev w).

(** Modelled from the spec: releasing a sample resource deletes its
    backing files if the resource owns them and leaves them untouched
    otherwise; release is idempotent.  ([data.Sample.release] is not
    part of the sources.) *)
Definition release (s : Sample) (w : World) : World :=
  add_event (EvRelease (name s))
    (set_fs (if delete s then foldr base.delete (fs w) (files s) else fs w) w).

(** Modelled from the spec: scoped acquisition of a sample, [with
    sample: body]; the sample is released on every exit from the body,
    and an exception of the body propagates. *)
Definition with_sample {A} (s : Sample) (body : M A) : M A := fun w =>
  let out := body (add_event (EvAcquire (name s)) w) in
  (out.1, release s out.2).

(** Modelled from the spec: the error-capture wrapper [util.fallible]
    turns an exception of one of the listed kinds into an absent result
    and lets every other exception through. *)
Definition fallible {A} (kinds : list Exn) (f : M A) : M (option A) := fun w =>
  match f w with
  | (Return a, w') => (Return (Some a), w')
  | (Raise e, w') =>
      if decide (e ∈ kinds) then (Return None, w') else (Raise e, w')
  end.

(** Modelled from the spec: [util.randname(tmpdir, suffix)] is a fresh
    path inside [tmpdir]. *)
Definition randname (env : Env) (tmpdir suffix : string) : M string := fun w =>
  (Return (tmpdir +:+ "/" +:+ token env (rng w) +:+ suffix), next_rng w).

Definition os_path_exists (path : string) : M bool := fun w =>
  (Return (bool_decide (path ∈ dirs w \/ is_Some (fs w !! path))), w).

Definition os_remove (path : string) : M unit := fun w =>
  match fs w !! path with
  | Some _ => (Return tt, add_event (EvRemove path) (set_fs (base.delete path (fs w)) w))
  | None => (Raise FileNotFoundError, w)
  end.

Definition sp_run (env : Env) (command : list string) : M Z := fun w =>
  let out := run env command (fs w) in (Return out.1, set_fs out.2 w).

(** ** picking.py: the cd-hit wrapper *)

Definition CDHIT : string := "cd-hit-est-2d".

(** The keyword options of [cdhit]; [similarity] is the text that
    [str(similarity)] gives. *)
Record CdhitOptions := {
  reference : string;
  accurate : bool;
  similarity : string;
  threads : Z;
  memory : Z
}.

Definition command (executable : string) (o : CdhitOptions)
    (input : list string) (output : string) : list string :=
  [executable; "-i"; reference o; "-c"; similarity o;
   "-g"; pretty (Z.b2z (accurate o)); "-T"; pretty (threads o);
   "-M"; pretty (memory o); "-o"; output]
  ++ mjoin (zip_with (fun flag path => [flag; path]) ["-i2"; "-j2"] input).

Definition cdhit_body (env : Env) (o : CdhitOptions)
    (input : list string) (output : string) : M (string * string) :=
  match which env CDHIT with
  | Some executable =>
      if Str.truthy executable then
        let clusters := output +:+ ".clstr" in
        returncode ← sp_run env (command executable o input output);
        if decide (returncode = 0%Z) then mret (output, clusters)
        else raise RuntimeError
      else raise RuntimeError
  | None => raise RuntimeError
  end.

Definition cdhit (env : Env) (o : CdhitOptions)
    (input : list string) (output : string) : M (option (string * string)) :=
  fallible [RuntimeError; CalledProcessError] (cdhit_body env o input output).

(** The text printed for the clusters: one line each, identifiers
    separated by tabs. *)
Definition print_clusters (clusters : list (list string)) : string :=
  foldr (fun cluster text => Str.join tb cluster +:+ nl +:+ text) EmptyString clusters.

(** Lines 94-96: the report is read and the clusters are printed to
    [output_].  The report is read after [output_] is opened for
    writing; what was printed before an exception stays in the file. *)
Definition write_clusters (env : Env) (drop_empty : bool)
    (clusterfile output_ : string) : M unit := fun w =>
  match fs w !! clusterfile with
  | None => (Raise FileNotFoundError, w)
  | Some _ =>
      if creatable env output_ then
        let opened := <[output_ := EmptyString]> (fs w) in
        let report := default EmptyString (opened !! clusterfile) in
        let parsed := parse_cdhit_clusters drop_empty (Str.readlines report) in
        let w' := set_fs (<[output_ := print_clusters parsed.1]> opened) w in
        match parsed.2 with
        | None => (Return tt, w')
        | Some e => (Raise e, w')
        end
      else (Raise FileNotFoundError, w)
  end.

(** [data.SampleClusters(name, clusters=path, delete=delete)] *)
Definition SampleClusters (name path : string) (delete : bool) : Sample :=
  {| name := name; files := [path]; delete := delete; format := Clusters |}.

(** Lines 90-104: the body of [with input:]. *)
Definition cdpick_scope (env : Env) (input : Sample) (output : option string)
    (output_ cdhit_tempout : string) (drop_empty : bool) (o : CdhitOptions)
  : M Sample :=
  let reads := files input in
  result ← cdhit env o reads cdhit_tempout;
  match result with
  | None => raise TypeError
  | Some (seqs, clusterfile) =>
      _ ← write_clusters env drop_empty clusterfile output_;
      _ ← os_remove seqs;
      _ ← os_remove clusterfile;
      mret (SampleClusters (name input) output_ (bool_decide (output = None)))
  end.

Definition cdpick_body (env : Env) (tmpdir : string) (input : Sample)
    (output : option string) (drop_empty : bool) (o : CdhitOptions) : M Sample :=
  found ← os_path_exists tmpdir;
  if negb found then raise ValueError
  else
    output_ ← match output with
               | None => randname env tmpdir EmptyString
               | Some path => mret path
               end;
    cdhit_tempout ← randname env tmpdir EmptyString;
    with_sample input
      (cdpick_scope env input output output_ cdhit_tempout drop_empty o).

Definition cdpick (env : Env) (tmpdir : string) (input : Sample)
    (output : option string) (drop_empty : bool) (o : CdhitOptions)
  : M (option Sample) :=
  fallible [RuntimeError; FileNotFoundError]
    (cdpick_body env tmpdir input output drop_empty o).

(** Modelled from the spec: batch clustering calls the invoker once per
    sample, in order, and collects one result per sample, absent where
    the invoker returned none; an exception aborts the batch.
    ([cdpick_multiple] is not part of the sources.) *)
Fixpoint cdpick_multiple (env : Env) (tmpdir : string) (drop_empty : bool)
    (o : CdhitOptions) (samples : list Sample) : M (list (option Sample)) :=
  match samples with
  | [] => mret []
  | sample :: rest =>
      result ← cdpick env tmpdir sample None drop_empty o;
      results ← cdpick_multiple env tmpdir drop_empty o rest;
      mret (result :: results)
  end.

(** ** pampi.py: stages and the pipeline entry point *)

(** What flows between stages: one sample, a collection of samples of
    one format, or Python's [None]. *)
Inductive Data : Type :=
| Single (s : Sample)
| Multiple (f : Format) (samples : list Sample)
| NoData.

(** [core.Map(input type, output type, function)] *)
Record Map := {
  domain : RepType;
  codomain : RepType;
  function : Data -> M Data
}.

(** [core.Router(name, maps)] *)
Record Router := {
  rname : string;
  maps : list Map
}.

(** Modelled from the spec: the pipeline compiler [core.pcompile] walks
    the stage list once, carrying the current type; at each stage it
    takes the alternative whose declared input type equals the current
    type, and fails with [TypeMismatch] if there is none; the output
    type of the alternative is carried to the next stage.  Nothing is
    run while the pipeline is assembled. *)
Fixpoint select_maps (routers : list Router) (current : RepType)
  : PyResult (list (string * Map)) :=
  match routers with
  | [] => Return []
  | r :: rest =>
      match List.find (fun m => bool_decide (domain m = current)) (maps r) with
      | None => Raise (TypeMismatch (rname r) current (domain <$> maps r))
      | Some m =>
          selected ← select_maps rest (codomain m);
          Return ((rname r, m) :: selected)
      end
  end.

(** Modelled from the spec: the composed transformation runs the
    selected alternatives in stage order, each on the result of the one
    before. *)
Fixpoint execute (selected : list (string * Map)) (d : Data) : M Data :=
  match selected with
  | [] => mret d
  | (stage, m) :: rest =>
      _ ← log (EvInvoke stage);
      d' ← function m d;
      execute rest d'
  end.

Definition pcompile (routers : list Router) (initial : RepType)
  : PyResult (Data -> M Data) :=
  selected ← select_maps routers initial;
  Return (execute selected).

(** [_INPUT_DTYPE_DISPATCH]; the key is the [--dtype] choice. *)
Definition _INPUT_DTYPE_DISPATCH (dtype : Format) : RepType * RepType :=
  (SampleT dtype, MultipleT dtype).

(** Modelled from the spec: the number of files of a sample resource
    must match its format, one file, or two for paired-end FASTQ;
    anything else is a construction error. *)
Definition arity (f : Format) : nat :=
  match f with
  | PairedFastq => 2
  | _ => 1
  end.

(** [single_t(name, *files, delete=delete)] *)
Definition new_sample (single_t : RepType) (name : string)
    (files : list string) (delete : bool) : PyResult Sample :=
  match single_t with
  | SampleT f =>
      if decide (length files = arity f)
      then Return {| name := name; files := files; delete := delete; format := f |}
      else Raise TypeError
  | MultipleT _ => Raise TypeError
  end.

(** [[single_t(name, *files, delete=False) for name, *files in rows]] *)
Fixpoint input_samples (single_t : RepType) (rows : list (string * list string))
  : PyResult (list Sample) :=
  match rows with
  | [] => Return []
  | (name, files) :: rest =>
      sample ← new_sample single_t name files false;
      samples ← input_samples single_t rest;
      Return (sample :: samples)
  end.

(** [multiple_t(samples)] *)
Definition new_collection (multiple_t : RepType) (samples : list Sample)
  : PyResult Data :=
  match multiple_t with
  | MultipleT f => Return (Multiple f samples)
  | SampleT _ => Raise TypeError
  end.

(** The body of the [try] statement, lines 89-92. *)
Definition input_collection (single_t multiple_t : RepType)
    (rows : list (string * list string)) : PyResult Data :=
  samples ← input_samples single_t rows;
  new_collection multiple_t samples.

(** The result callback [pipeline]. *)
Definition pipeline (routers : list Router) (input : list (string * list string))
    (dtype : Format) : M Data :=
  if routers is [] then raise SystemExit
  else
    let '(single_t, multiple_t) := _INPUT_DTYPE_DISPATCH dtype in
    match input_collection single_t multiple_t input with
    | Raise e =>
        if decide (e ∈ [TypeError; IndexError]) then raise ValueError else raise e
    | Return samples =>
        match pcompile routers multiple_t with
        | Raise e => raise e
        | Return composed => composed samples
        end
    end.

(** *** The stages *)

(** [x.samples] *)
Definition samples_of (x : Data) : PyResult (list Sample) :=
  match x with
  | Multiple _ samples => Return samples
  | _ => Raise AttributeError
  end.

(** [sum(map(bool, records))] *)
Definition count_truthy (recs : list bool) : Z :=
  Z.of_nat (length (filter (fun b => b = true) recs)).

(** [sample.parse()] *)
Definition sample_parse (env : Env) (sample : Sample) : M (list bool) := fun w =>
  (Return (records env sample), add_event (EvParse (name sample)) w).

(** [sample.release()] *)
Definition sample_release (sample : Sample) : M unit := fun w =>
  (Return tt, release sample w).

(** [list(size_filt(samples))]: the generator, drained. *)
Fixpoint size_filt (env : Env) (nseq : Z) (samples : list Sample) : M (list Sample) :=
  match samples with
  | [] => mret []
  | sample :: rest =>
      recs ← sample_parse env sample;
      if (count_truthy recs >=? nseq)%Z then
        yielded ← size_filt env nseq rest;
        mret (sample :: yielded)
      else
        _ ← sample_release sample;
        size_filt env nseq rest
  end.

Definition sample_filter (env : Env) (nseq : Z) : Router :=
  {| rname := "filter";
     maps := [
       {| domain := MultipleT PairedFastq;
          codomain := MultipleT PairedFastq;
          function := fun x =>
            samples ← lift (samples_of x);
            yielded ← size_filt env nseq samples;
            mret (Multiple PairedFastq yielded) |}
     ] |}.

(** The other stages, over the functions of the modules they call. *)
Definition trimmer (trim : Data -> M Data) : Router :=
  {| rname := "trimmer";
     maps := [
       {| domain := MultipleT PairedFastq; codomain := MultipleT PairedFastq;
          function := trim |}
     ] |}.

Definition picker (pick pick_multiple : Data -> M Data) : Router :=
  {| rname := "picker";
     maps := [
       {| domain := SampleT Fasta; codomain := SampleT Clusters; function := pick |};
       {| domain := MultipleT Fasta; codomain := MultipleT Clusters; function := pick_multiple |};
       {| domain := SampleT Fastq; codomain := SampleT Clusters; function := pick |};
       {| domain := MultipleT Fastq; codomain := MultipleT Clusters; function := pick_multiple |};
       {| domain := SampleT PairedFastq; codomain := SampleT Clusters; function := pick |};
       {| domain := MultipleT PairedFastq; codomain := MultipleT Clusters;
          function := pick_multiple |}
     ] |}.

(** ** The cluster-membership file, read back *)

(** A line without its terminating newline. *)
Fixpoint chomp (l : string) : string :=
  match l with
  | EmptyString => EmptyString
  | String c l' =>
      if ascii_dec c Str.newline then
        match l' with
        | EmptyString => EmptyString
        | String _ _ => String c (chomp l')
        end
      else String c (chomp l')
  end.

(** Modelled from the spec: the cluster-membership format is read back
    with each line as one cluster and its identifiers separated by
    tabs.  (The reader of the format is not part of the sources.) *)
Definition read_clusters (text : string) : list (list string) :=
  (fun l => Str.split Str.tab (chomp l)) <$> Str.readlines text.

(** An identifier that the format can carry. *)
Definition plain_id (id : string) : bool :=
  negb (Str.contains Str.tab id) && negb (Str.contains Str.newline id).

Definition plain_cluster (cluster : list string) : bool :=
  (if cluster is [] then false else true) && forallb plain_id cluster.

(** ** The paths that [cdpick] works with *)

(** [output_]: the caller's path, or the first random name. *)
Definition output_path (env : Env) (tmpdir : string) (output : option string)
    (w : World) : string :=
  match output with
  | Some path => path
  | None => tmpdir +:+ "/" +:+ token env (rng w) +:+ EmptyString
  end.

(** [cdhit_tempout]: the random name drawn after [output_]. *)
Definition tempout_path (env : Env) (tmpdir : string) (output : option string)
    (w : World) : string :=
  tmpdir +:+ "/" +:+ token env (if output is None then S (rng w) else rng w) +:+ EmptyString.

Definition is_remove (ev : Event) : bool :=
  match ev with
  | EvRemove _ => true
  | _ => false
  end.

(** The files of a sample, deleted if the sample owns them. *)
Definition drop_files (s : Sample) (m : gmap string string) : gmap string string :=
  if delete s then foldr base.delete m (files s) else m.

(** ** Type gaps in a stage list *)

(** A stage as the specification constructs it: no two alternatives
    share an input type. *)
Definition wf_router (r : Router) : Prop := NoDup (domain <$> maps r).

(** [carries routers t t']: every stage of [routers] has an alternative
    for the type carried to it, starting from [t], and [t'] is the type
    carried out of the last one. *)
Inductive carries : list Router -> RepType -> RepType -> Prop :=
| carries_nil (t : RepType) : carries [] t t
| carries_cons (r : Router) (rest : list Router) (m : Map) (t t' : RepType) :
    m ∈ maps r -> domain m = t -> carries rest (codomain m) t' ->
    carries (r :: rest) t t'.

(** The stage has no alternative for the type. *)
Definition incompatible (r : Router) (t : RepType) : Prop :=
  forall m, m ∈ maps r -> domain m <> t.

(** ** The filter stage in the specification's words *)

(** The sample passes: its count of truthy records is at least [nseq]. *)
Definition passes (env : Env) (nseq : Z) (s : Sample) : bool :=
  (nseq <=? count_truthy (records env s))%Z.

(** What the stage does with one sample: it is parsed, and released at
    once if it does not pass. *)
Definition filter_events (env : Env) (nseq : Z) (s : Sample) : list Event :=
  if passes env nseq s then [EvParse (name s)]
  else [EvParse (name s); EvRelease (name s)].

(** ** Example reports *)

(** The report text of the specification's example: every line starts
    with ['>']. *)
Definition spec_text : string :=
  ">ref..." +:+ nl +:+ ">seqA..." +:+ nl +:+ ">seqB..." +:+ nl +:+ ">ref2..." +:+ nl.

(** The same clusters with header lines, and with member lines that do
    not start with ['>'], as cd-hit writes them. *)
Definition cdhit_text : string :=
  ">Cluster 0" +:+ nl +:+ "0 >ref..." +:+ nl +:+ "1 >seqA..." +:+ nl
  +:+ "2 >seqB..." +:+ nl +:+ ">Cluster 1" +:+ nl +:+ "0 >ref2..." +:+ nl.

Definition cdhit_blocks : list Block :=
  [ {| header := ">Cluster 0" +:+ nl;
       members := [ {| pre := "0" +:+ tb +:+ "9nt, "; seqid := "ref"; post := " *" +:+ nl |};
                    {| pre := "1" +:+ tb +:+ "9nt, "; seqid := "seq.A"; post := " at +/99.00%" +:+ nl |} ] |};
    {| header := ">Cluster 1" +:+ nl;
       members := [ {| pre := "0" +:+ tb +:+ "7nt, "; seqid := "ref2"; post := " *" +:+ nl |} ] |} ].

(** ** An example world *)

(** A stand-in for cd-hit: it fails if its first input file does not
    exist; otherwise it writes its sequences and its cluster report. *)
Definition demo_run (report : string) (argv : list string)
    (files : gmap string string) : Z * gmap string string :=
  match argv !! 12%nat, argv !! 14%nat with
  | Some output, Some input =>
      match files !! input with
      | Some _ => (0%Z, <[output := ">ref"]> (<[output +:+ ".clstr" := report]> files))
      | None => (1%Z, files)
      end
  | _, _ => (2%Z, files)
  end.

Definition demo_token (n : nat) : string := "tmp" +:+ pretty n.

Definition demo_env (report : string) : Env :=
  {| which := fun _ => Some "/usr/bin/cd-hit-est-2d";
     run := demo_run report;
     token := demo_token;
     creatable := fun _ => true;
     records := fun s =>
       if decide (name s = "mid") then [true; true; true]
       else if decide (name s = "high") then [true; true; false; true; true; true]
       else [false] |}.

Definition demo_options : CdhitOptions :=
  {| reference := "/data/ref.fa"; accurate := false; similarity := "0.97";
     threads := 1; memory := 1000 |}.

Definition demo_sample (name path : string) (delete : bool) : Sample :=
  {| name := name; files := [path]; delete := delete; format := Fasta |}.

Definition demo_world : World :=
  {| fs := {[ "/data/a.fa" := ">a"; "/data/c.fa" := ">c" ]};
     dirs := {[ "/tmp" ]};
     rng := 0;
     trace := [] |}.

(** A report with a member line that carries no identifier. *)
Definition broken_text : string :=
  ">Cluster 0" +:+ nl +:+ "0 >ref..." +:+ nl +:+ "1 >seqA" +:+ nl.

Definition sample_a : Sample := demo_sample "a" "/data/a.fa" true.
Definition sample_b : Sample := demo_sample "b" "/data/b.fa" true.
Definition sample_c : Sample := demo_sample "c" "/data/c.fa" true.

(** A stage function that hands its input on. *)
Definition pass_on (d : Data) : M Data := mret d.

(** Paired-end samples; [demo_env] gives "low" no truthy record, "mid"
    three and "high" five. *)
Definition reads (name : string) (delete : bool) : Sample :=
  {| name := name; files := ["/data/" +:+ name +:+ "_R1.fq"; "/data/" +:+ name +:+ "_R2.fq"];
     delete := delete; format := PairedFastq |}.

Definition reads_world : World :=
  {| fs := {[ "/data/low_R1.fq" := "@0"; "/data/low_R2.fq" := "@0";
              "/data/mid_R1.fq" := "@1"; "/data/mid_R2.fq" := "@1";
              "/data/high_R1.fq" := "@2"; "/data/high_R2.fq" := "@2" ]};
     dirs := {[ "/data" ]};
     rng := 0;
     trace := [] |}.

(** ** pampi.py: option validation *)

(** What a callable handed to [validate] does with a value: it returns
    an object, or raises an exception (a subclass of [Exception]), of
    which [validate] uses the text, [str(err)]. *)
Inductive Checked (A : Type) : Type :=
| Ok (a : A)
| Fails (text : string).
Arguments Ok {A} a.
Arguments Fails {A} text.

(** What [validate] does: it returns, or raises [click.BadParameter]
    with a message. *)
Inductive Validated (B : Type) : Type :=
| Accepted (b : B)
| BadParameter (message : string).
Arguments Accepted {B} b.
Arguments BadParameter {B} message.

(** [validate(f, transform, message, ctx, param, value)]; [f] gives the
    truth value of the object it returns.  The [BadParameter] raised
    inside the [try] block is caught by [except Exception] like any
    other exception; its text is its message. *)
Definition validate {A B} (f : A -> Checked bool) (transform : A -> Checked B)
    (message : string) (value : A) : Validated B :=
  let attempt :=
    match transform value with
    | Fails text => Fails text
    | Ok transformed =>
        match f value with
        | Fails text => Fails text
        | Ok false => Fails message
        | Ok true => Ok transformed
        end
    end in
  match attempt with
  | Ok transformed => Accepted transformed
  | Fails err => BadParameter ("validator failed with: " +:+ err)
  end.

(** [fn.func.identity] *)
Definition identity {A} (x : A) : Checked A := Ok x.

(** The text of the [TypeError] that comparing [None] with an integer
    raises. *)
Definition unorderable (op : string) : string :=
  "'" +:+ op +:+ "' not supported between instances of 'NoneType' and 'int'".

(** [X > bound] and [X >= bound] on the value of an integer option,
    which is [None] when the option is not given and has no default. *)
Definition X_gt (bound : Z) (value : option Z) : Checked bool :=
  match value with
  | Some n => Ok (bound <? n)%Z
  | None => Fails (unorderable ">")
  end.

Definition X_ge (bound : Z) (value : option Z) : Checked bool :=
  match value with
  | Some n => Ok (bound <=? n)%Z
  | None => Fails (unorderable ">=")
  end.

(** The callbacks of [--nseq], [--threads] and [--memory]. *)
Definition validate_nseq : option Z -> Validated (option Z) :=
  validate (X_gt 0) identity "nseq is negative".

Definition validate_threads : option Z -> Validated (option Z) :=
  validate (X_gt 0) identity "must be positive".

Definition validate_memory : option Z -> Validated (option Z) :=
  validate (X_ge 100) identity "should be at least 100MB".

(** [os.path.isdir] *)
Definition os_path_isdir (path : string) (w : World) : bool :=
  bool_decide (path ∈ dirs w).

(** The callback of [--tempdir], in a world. *)
Definition validate_tempdir (w : World) : string -> Validated string :=
  validate (fun path => Ok (os_path_isdir path w)) identity
    "tempdir is not a directory or does not exist".

(** ** pampi.py: the JOIN stage *)

(** [s.replace(c, new)] for a one-character [c]. *)
Fixpoint replace_char (c : ascii) (new s : string) : string :=
  match s with
  | EmptyString => EmptyString
  | String x s' =>
      if ascii_dec x c then new +:+ replace_char c new s'
      else String x (replace_char c new s')
  end.

(** [sub in s] *)
Fixpoint substring_in (sub s : string) : bool :=
  Str.startswith sub s
  || match s with
     | EmptyString => false
     | String _ s' => substring_in sub s'
     end.

(** [joiner]: [join] stands for the function of every alternative,
    [join.join] applied to the options and the samples. *)
Definition joiner (join : Data -> M Data) (output : option string) : Router :=
  let output :=
    match output with
    | Some path => if Str.truthy path then Some (replace_char "%" "{}" path) else None
    | None => None
    end in
  let maps := [
    {| domain := MultipleT Fasta; codomain := SampleT Fasta; function := join |};
    {| domain := MultipleT Fastq; codomain := SampleT Fastq; function := join |};
    {| domain := MultipleT Clusters; codomain := SampleT Clusters; function := join |}
  ] in
  if match output with
     | None => true
     | Some path => substring_in "{}" path
     end
  then {| rname := "joiner";
          maps := maps ++ [ {| domain := MultipleT PairedFastq;
                               codomain := SampleT PairedFastq; function := join |} ] |}
  else {| rname := "joiner"; maps := maps |}.

(** The output given to JOIN is absent, empty, or a pattern. *)
Definition pattern_output (output : option string) : bool :=
  match output with
  | None => true
  | Some path =>
      negb (Str.truthy path) || Str.contains "%" path || substring_in "{}" path
  end.

(** ** uniprot2prokka.py *)

Module Prokka.

(** The character class [[A-Za-z0-9\-()/,.:\s]]. *)
Definition name_char (c : ascii) : bool :=
  let n := nat_of_ascii c in
  ((65 <=? n)%nat && (n <=? 90)%nat)
  || ((97 <=? n)%nat && (n <=? 122)%nat)
  || ((48 <=? n)%nat && (n <=? 57)%nat)
  || (n =? 45)%nat || (n =? 40)%nat || (n =? 41)%nat || (n =? 47)%nat
  || (n =? 44)%nat || (n =? 46)%nat || (n =? 58)%nat
  || Str.isspace c.

(** The longest run of characters of the class at the start of a
    text: the greedy [[...]+]. *)
Fixpoint class_run (s : string) : string :=
  match s with
  | EmptyString => EmptyString
  | String c s' => if name_char c then String c (class_run s') else EmptyString
  end.

(** The text behind a prefix, if the text starts with it. *)
Fixpoint after_prefix (p s : string) : option string :=
  match p, s with
  | EmptyString, _ => Some s
  | String a p', String b s' => if ascii_dec a b then after_prefix p' s' else None
  | String _ _, EmptyString => None
  end.

(** A match of [Full=([A-Za-z0-9\-()/,.:\s]+)] at the start of a text;
    the result is the group. *)
Definition match_full (s : string) : option string :=
  match after_prefix "Full=" s with
  | Some rest =>
      match class_run rest with
      | EmptyString => None
      | String c g => Some (String c g)
      end
  | None => None
  end.

(** [DESCRIPTION_PATERN.findall]; [skip] counts the characters of the
    last match that are still to be passed over. *)
Fixpoint findall_from (skip : nat) (s : string) : list string :=
  match s with
  | EmptyString => []
  | String _ s' =>
      match skip with
      | S k => findall_from k s'
      | O =>
          match match_full s with
          | Some g => g :: findall_from (String.length g + 4) s'
          | None => findall_from 0 s'
          end
      end
  end.

Definition DESCRIPTION_PATERN (s : string) : list string := findall_from 0 s.

Definition sprot_description (description : string) : string :=
  let matches := DESCRIPTION_PATERN description in
  Str.join ";" (Str.strip <$> matches).

(** The fields of a [SeqRecord] that [toprokka] reads and sets. *)
Record SeqRecord := {
  seq : string;
  id : string;
  name : string;
  description : string
}.

(** [srec.name.split("_")[0]]: [split] never gives an empty list. *)
Definition first_field (s : string) : string :=
  match Str.split "_" s with
  | x :: _ => x
  | [] => EmptyString
  end.

Definition toprokka (srec : SeqRecord) : SeqRecord :=
  let id_ := id srec in
  let name := first_field (name srec) in
  let descr := sprot_description (description srec) in
  let prokka_id := id_ +:+ " ~~~" +:+ name +:+ "~~~" +:+ descr in
  {| seq := seq srec; id := prokka_id; name := EmptyString;
     description := EmptyString |}.

End Prokka.

(** *** Description lines, as UniProt writes them *)

(** A text all of whose characters are in the class. *)
Fixpoint class_only (s : string) : bool :=
  match s with
  | EmptyString => true
  | String c s' => Prokka.name_char c && class_only s'
  end.

(** An entry of a description: some text without ['='], such as
    ["RecName: "], and the full name it introduces. *)
Definition wf_entry (entry : string * string) : bool :=
  negb (Str.contains "=" entry.1) && Str.truthy entry.2 && class_only entry.2.

(** The description: each entry as [text Full=name;], then a rest. *)
Definition de_line (entries : list (string * string)) (rest : string) : string :=
  foldr (fun entry text => entry.1 +:+ "Full=" +:+ entry.2 +:+ ";" +:+ text)
    rest entries.
(** ** Facts about the string primitives *)

Section StrFacts.

Lemma append_empty_r (s : string) : s +:+ EmptyString = s.
Proof. induction s as [|c s IH]; simpl; congruence. Qed.

Lemma append_assoc (a b c : string) : (a +:+ b) +:+ c = a +:+ b +:+ c.
Proof. induction a as [|x a IH]; simpl; congruence. Qed.

Lemma rstrip_cons_nonspace (c : ascii) (s : string) :
  Str.isspace c = false -> Str.rstrip (String c s) = String c (Str.rstrip s).
Proof. intros Hc. simpl. rewrite Hc. now destruct (Str.rstrip s). Qed.

Lemma lstrip_app (a b : string) :
  Str.lstrip a <> EmptyString -> Str.lstrip (a +:+ b) = Str.lstrip a +:+ b.
Proof.
  induction a as [|c a IH]; simpl; [congruence|].
  destruct (Str.isspace c); auto.
Qed.

Lemma rstrip_app (a b : string) :
  Str.rstrip b <> EmptyString -> Str.rstrip (a +:+ b) = a +:+ Str.rstrip b.
Proof.
  intros Hb. induction a as [|c a IH]; simpl; [reflexivity|].
  rewrite IH. destruct (a +:+ Str.rstrip b) eqn:E; [|reflexivity].
  destruct a; simpl in E; congruence.
Qed.

Lemma lstrip_suffix (s : string) : exists a, s = a +:+ Str.lstrip s.
Proof.
  induction s as [|c s [a IH]]; simpl; [now exists EmptyString|].
  destruct (Str.isspace c); [|now exists EmptyString].
  exists (String c a). simpl. congruence.
Qed.

Lemma rstrip_prefix (s : string) : exists b, s = Str.rstrip s +:+ b.
Proof.
  induction s as [|c s [b IH]]; simpl; [now exists EmptyString|].
  destruct (Str.rstrip s) eqn:E.
  - destruct (Str.isspace c); simpl.
    + now exists (String c s).
    + exists b. simpl in *. congruence.
  - exists b. simpl in *. congruence.
Qed.

(** A stripped line is a contiguous part of the line. *)
Lemma strip_infix (s : string) : exists a b, s = a +:+ Str.strip s +:+ b.
Proof.
  destruct (lstrip_suffix s) as [a Ha].
  destruct (rstrip_prefix (Str.lstrip s)) as [b Hb].
  exists a, b. unfold Str.strip. congruence.
Qed.

Lemma startswith_app (p a b : string) :
  (String.length p <= String.length a)%nat ->
  Str.startswith p (a +:+ b) = Str.startswith p a.
Proof.
  revert a. induction p as [|x p IH]; intros [|y a] Hlen; simpl in *;
    try reflexivity; try lia.
  destruct (ascii_dec x y); [apply IH; lia | reflexivity].
Qed.

Lemma startswith_true (p s : string) :
  Str.startswith p s = true -> exists r, s = p +:+ r.
Proof.
  revert s. induction p as [|x p IH]; intros s H; simpl in *.
  - now exists s.
  - destruct s as [|y s]; [discriminate|].
    destruct (ascii_dec x y) as [->|]; [|discriminate].
    destruct (IH _ H) as [r ->]. now exists r.
Qed.

Lemma length_append (a b : string) :
  String.length (a +:+ b) = (String.length a + String.length b)%nat.
Proof. induction a as [|x a IH]; simpl; congruence. Qed.

Lemma contains_app (c : ascii) (a b : string) :
  Str.contains c (a +:+ b) = Str.contains c a || Str.contains c b.
Proof.
  induction a as [|x a IH]; simpl; [reflexivity|].
  now destruct (ascii_dec x c).
Qed.

End StrFacts.

(** ** Facts about the regular expression *)

Section Regex.

Lemma until_dots_eq (s : string) :
  until_dots s =
    if Str.startswith "..." s then Some EmptyString
    else match s with
         | EmptyString => None
         | String c s' =>
             if ascii_dec c Str.newline then None
             else String c <$> until_dots s'
         end.
Proof. now destruct s. Qed.

Lemma until_dots_sound (s g : string) :
  until_dots s = Some g ->
  exists r, s = g +:+ "..." +:+ r /\ Str.contains Str.newline g = false.
Proof.
  revert g. induction s as [|c s IH]; intros g; rewrite until_dots_eq.
  - simpl. discriminate.
  - destruct (Str.startswith "..." (String c s)) eqn:E.
    + intros [= <-]. destruct (startswith_true _ _ E) as [r Hr]. now exists r.
    + destruct (ascii_dec c Str.newline) as [|Hc]; [discriminate|].
      destruct (until_dots s) as [g'|] eqn:Eg; [|discriminate].
      intros [= <-]. destruct (IH _ eq_refl) as (r & -> & Hnl).
      exists r. split; [reflexivity|]. simpl.
      now destruct (ascii_dec c Str.newline).
Qed.

Lemma match_here_sound (s g : string) :
  match_here s = Some g ->
  exists r, s = ">" +:+ g +:+ "..." +:+ r /\ g <> EmptyString /\ Str.contains Str.newline g = false.
Proof.
  destruct s as [|x [|c s]]; try discriminate. unfold match_here.
  destruct (ascii_dec x ">") as [->|]; [|discriminate].
  destruct (ascii_dec c Str.newline) as [|Hc]; [discriminate|].
  destruct (until_dots s) as [g'|] eqn:Eg; [|discriminate].
  intros [= <-]. destruct (until_dots_sound _ _ Eg) as (r & -> & Hnl).
  exists r. repeat split; [discriminate|]. simpl.
  now destruct (ascii_dec c Str.newline).
Qed.

Lemma findall_sound (k : nat) (s : string) :
  findall_from k s <> [] ->
  exists a b g, s = a +:+ b /\ match_here b = Some g.
Proof.
  revert k. induction s as [|c s IH]; intros k H; [now simpl in H|].
  assert (Hrec : forall k', findall_from k' s <> [] ->
            exists a b g, String c s = a +:+ b /\ match_here b = Some g).
  { intros k' Hk'. destruct (IH _ Hk') as (a & b & g & -> & Hm).
    now exists (String c a), b, g. }
  destruct k as [|k]; [|now apply (Hrec k)].
  destruct (match_here (String c s)) as [g|] eqn:Em.
  - now exists EmptyString, (String c s), g.
  - apply (Hrec 0%nat). cbn [findall_from] in H. now rewrite Em in H.
Qed.

Lemma match_here_other (c : ascii) (s : string) :
  c <> ">"%char -> match_here (String c s) = None.
Proof.
  intros Hc. destruct s as [|d s]; [reflexivity|]. unfold match_here.
  now destruct (ascii_dec c ">").
Qed.

(** Text without ['>'] in front of a match is passed over. *)
Lemma findall_skip_prefix (p r : string) :
  Str.contains ">" p = false ->
  findall_from 0 (p +:+ r) = findall_from 0 r.
Proof.
  induction p as [|c p IH]; [reflexivity|].
  cbn [Str.contains]. destruct (ascii_dec c ">") as [|Hc]; [discriminate|].
  intros Hp. cbn [String.append findall_from].
  rewrite (match_here_other c _ Hc). auto.
Qed.

End Regex.


(** ** Facts about [groupby] *)

Section GroupBy.
Context {A : Type} (key : A -> bool).

Lemma groupby_cons (x : A) (l : list A) :
  groupby key (x :: l) =
    match groupby key l with
    | (k, g) :: gs =>
        if Bool.eqb (key x) k then (k, x :: g) :: gs
        else (key x, [x]) :: (k, g) :: gs
    | [] => [(key x, [x])]
    end.
Proof. reflexivity. Qed.

(** A run of equal keys in front of a different key is one group. *)
Lemma groupby_run (k : bool) (ms rest : list A) :
  ms <> [] ->
  Forall (fun x => key x = k) ms ->
  (forall k' g gs, groupby key rest = (k', g) :: gs -> k' <> k) ->
  groupby key (ms ++ rest) = (k, ms) :: groupby key rest.
Proof.
  intros Hne Hall Hrest. induction Hall as [|x ms Hx Hall IH]; [done|].
  destruct ms as [|y ms].
  - simpl. destruct (groupby key rest) as [|[k' g] gs] eqn:E; [by rewrite Hx|].
    rewrite Hx. specialize (Hrest _ _ _ eq_refl).
    by destruct k, k'.
  - change ((x :: y :: ms) ++ rest) with (x :: ((y :: ms) ++ rest)).
    rewrite groupby_cons, IH by done. rewrite Hx. by destruct k.
Qed.

Lemma groupby_keys (l : list A) :
  Forall (fun kg => Forall (fun x => key x = kg.1) kg.2) (groupby key l).
Proof.
  induction l as [|x l IH]; simpl; [constructor|].
  destruct (groupby key l) as [|[k g] gs]; [by repeat constructor|].
  inversion IH as [|? ? Hg Hgs]; subst. simpl in Hg.
  destruct (Bool.eqb (key x) k) eqn:E.
  - apply Bool.eqb_prop in E. by repeat constructor.
  - by repeat constructor.
Qed.

Lemma groupby_concat (l : list A) : mjoin (snd <$> groupby key l) = l.
Proof.
  induction l as [|x l IH]; simpl; [done|].
  destruct (groupby key l) as [|[k g] gs]; simpl in *; [by rewrite <- IH|].
  destruct (Bool.eqb (key x) k); simpl; by rewrite <- IH.
Qed.

(** Every element lies in a group that carries its key. *)
Lemma groupby_elem (l : list A) (x : A) :
  x ∈ l -> exists g, (key x, g) ∈ groupby key l /\ x ∈ g.
Proof.
  intros Hx. rewrite <- (groupby_concat l) in Hx.
  apply list_elem_of_join in Hx as (g & Hxg & Hg).
  apply list_elem_of_fmap in Hg as ([k g'] & -> & Hin).
  pose proof (groupby_keys l) as Hk.
  rewrite Forall_forall in Hk. specialize (Hk _ Hin). simpl in *.
  rewrite Forall_forall in Hk. rewrite (Hk _ Hxg). eauto.
Qed.

End GroupBy.

(** ** Facts about the parser *)

Section Parser.

Lemma seqids_of_raises (g : list string) (e : Exn) :
  seqids_of g = Raise e -> e = IndexError.
Proof.
  induction g as [|l g IH]; simpl; [discriminate|].
  destruct (SEQID l) as [|x xs]; simpl; [congruence|].
  destruct (seqids_of g); simpl; [discriminate|]. intros [= <-]. by apply IH.
Qed.

Lemma seqids_of_missing (g : list string) (l : string) :
  l ∈ g -> SEQID l = [] -> seqids_of g = Raise IndexError.
Proof.
  intros Hin Hl. induction Hin as [l g|l l' g Hin IH]; simpl.
  - by rewrite Hl.
  - destruct (SEQID l') as [|x xs]; simpl; [done|]. by rewrite IH.
Qed.

Lemma transform_cluster_raises (d : bool) (g : list string) (e : Exn) :
  transform_cluster d g = Raise e -> e = IndexError.
Proof.
  unfold transform_cluster. destruct (seqids_of g) eqn:E; simpl; [discriminate|].
  intros [= <-]. by apply (seqids_of_raises g).
Qed.

Lemma transform_all_raises (d : bool) (gs : list (list string)) (e : Exn) :
  (transform_all d gs).2 = Some e -> e = IndexError.
Proof.
  induction gs as [|g gs IH]; simpl; [discriminate|].
  destruct (transform_cluster d g) eqn:E; simpl; [done|].
  intros [= <-]. by apply (transform_cluster_raises d g).
Qed.

(** A group with a line from which no identifier is found ends the
    stream with an [IndexError]. *)
Lemma transform_all_missing (d : bool) (gs : list (list string)) (g : list string) :
  g ∈ gs -> seqids_of g = Raise IndexError ->
  (transform_all d gs).2 = Some IndexError.
Proof.
  intros Hin Hg. induction Hin as [g gs|g g' gs Hin IH]; simpl.
  - unfold transform_cluster. by rewrite Hg.
  - destruct (transform_cluster d g') eqn:E; simpl; [by apply IH|].
    by rewrite (transform_cluster_raises _ _ _ E).
Qed.

Lemma member_groups_elem (handle : list string) (l : string) :
  l ∈ handle -> is_member_line l ->
  exists g, g ∈ member_groups handle /\ Str.strip l ∈ g.
Proof.
  intros Hin [Ht Hh].
  assert (Hs : Str.strip l ∈ filter (fun l => Str.truthy l = true) (Str.strip <$> handle)).
  { apply list_elem_of_filter. split; [done|]. by apply list_elem_of_fmap_2. }
  destruct (groupby_elem is_header _ _ Hs) as (g & Hg & Hlg).
  exists g. split; [|done]. unfold member_groups.
  apply list_elem_of_fmap. exists (is_header (Str.strip l), g). split; [done|].
  apply list_elem_of_filter. split; [|done]. simpl. by rewrite Hh.
Qed.

Lemma SEQID_sound (s : string) : SEQID s <> [] -> carries_identifier s.
Proof.
  intros H. destruct (findall_sound _ _ H) as (a & b & g & -> & Hm).
  destruct (match_here_sound _ _ Hm) as (r & -> & Hg & Hnl).
  by exists a, g, r.
Qed.

Lemma carries_identifier_infix (a s b : string) :
  carries_identifier s -> carries_identifier (a +:+ s +:+ b).
Proof.
  intros (p & id & q & -> & Hid & Hnl). exists (a +:+ p), id, (q +:+ b).
  split; [|done]. by rewrite !append_assoc.
Qed.

Lemma SEQID_strip_none (l : string) :
  ~ carries_identifier l -> SEQID (Str.strip l) = [].
Proof.
  intros Hno. destruct (SEQID (Str.strip l)) eqn:E; [done|]. exfalso.
  apply Hno. destruct (strip_infix l) as (a & b & Hl). rewrite Hl.
  apply carries_identifier_infix, SEQID_sound. by rewrite E.
Qed.

End Parser.

(** ** Well-formed reports are parsed block by block *)

Section Report.

Lemma truthy_ne (s : string) : Str.truthy s = true <-> s <> EmptyString.
Proof. destruct s; simpl; split; congruence. Qed.

Lemma contains_lstrip (c : ascii) (s : string) :
  Str.contains c s = false -> Str.contains c (Str.lstrip s) = false.
Proof.
  induction s as [|x s IH]; simpl; [done|].
  destruct (Str.isspace x); simpl; [|done].
  destruct (ascii_dec x c); [done|auto].
Qed.

Lemma until_dots_clean (t q : string) :
  lazy_clean t = true -> until_dots (t +:+ "..." +:+ q) = Some t.
Proof.
  induction t as [|c t IH]; [reflexivity|].
  cbn [lazy_clean]. rewrite !andb_true_iff, negb_true_iff.
  intros [[Hd Hc] Ht]. rewrite until_dots_eq.
  assert (Hs : Str.startswith "..." (String c t +:+ "..." +:+ q) = false).
  { rewrite <- append_assoc, startswith_app; [done|].
    rewrite length_append. simpl. lia. }
  rewrite Hs. specialize (IH Ht). remember ("..." +:+ q) as r.
  cbn [String.append]. destruct (ascii_dec c Str.newline); [done|].
  by rewrite IH.
Qed.

Lemma match_here_valid (id q : string) :
  valid_seqid id = true -> match_here (">" +:+ id +:+ "..." +:+ q) = Some id.
Proof.
  destruct id as [|c t]; [done|]. cbn [valid_seqid]. rewrite andb_true_iff.
  intros [Hc Ht]. pose proof (until_dots_clean t q Ht) as Hu.
  remember ("..." +:+ q) as r. cbn [String.append match_here].
  destruct (ascii_dec ">" ">"); [|done].
  destruct (ascii_dec c Str.newline); [done|].
  by rewrite Hu.
Qed.

Lemma SEQID_marked (p id q : string) :
  Str.contains ">" p = false -> valid_seqid id = true ->
  item0 (SEQID (p +:+ ">" +:+ id +:+ "..." +:+ q)) = Return id.
Proof.
  intros Hp Hid. unfold SEQID. rewrite findall_skip_prefix by done.
  pose proof (match_here_valid id q Hid) as Hm.
  remember (id +:+ "..." +:+ q) as r.
  cbn [String.append] in *. cbn [findall_from]. by rewrite Hm.
Qed.

Lemma wf_member_inv (m : Member) :
  wf_member m = true ->
  Str.contains ">" (pre m) = false /\ Str.lstrip (pre m) <> EmptyString
  /\ valid_seqid (seqid m) = true.
Proof.
  unfold wf_member. rewrite !andb_true_iff, negb_true_iff, truthy_ne. tauto.
Qed.

Lemma strip_member_line (m : Member) :
  wf_member m = true ->
  Str.strip (member_line m)
  = Str.lstrip (pre m) +:+ ">" +:+ seqid m +:+ "..." +:+ Str.rstrip (post m).
Proof.
  intros (Hp & Hl & Hid)%wf_member_inv. unfold Str.strip, member_line.
  rewrite lstrip_app by done.
  assert (Hdots : Str.rstrip ("..." +:+ post m) = "..." +:+ Str.rstrip (post m)).
  { cbn [String.append]. by rewrite !rstrip_cons_nonspace. }
  assert (Hgt : forall s, Str.rstrip (">" +:+ s) = ">" +:+ Str.rstrip s).
  { intros s. cbn [String.append]. by rewrite rstrip_cons_nonspace. }
  rewrite rstrip_app; rewrite Hgt; [|done].
  rewrite rstrip_app; rewrite Hdots; done.
Qed.

Lemma stripped_member (m : Member) :
  wf_member m = true ->
  Str.truthy (Str.strip (member_line m)) = true
  /\ is_header (Str.strip (member_line m)) = false
  /\ item0 (SEQID (Str.strip (member_line m))) = Return (seqid m).
Proof.
  intros Hm. rewrite strip_member_line by done.
  apply wf_member_inv in Hm as (Hp & Hl & Hid).
  apply (contains_lstrip ">") in Hp.
  split; [|split].
  - destruct (Str.lstrip (pre m)); done.
  - destruct (Str.lstrip (pre m)) as [|c s]; [done|].
    cbn [Str.contains] in Hp. destruct (ascii_dec c ">"); [done|].
    unfold is_header. cbn [String.append Str.startswith].
    by destruct (ascii_dec ">" c).
  - by apply SEQID_marked.
Qed.

Lemma wf_block_inv (b : Block) :
  wf_block b = true ->
  is_header (Str.strip (header b)) = true /\ members b <> []
  /\ Forall (fun m => wf_member m = true) (members b).
Proof.
  unfold wf_block. rewrite !andb_true_iff.
  intros [[Hh Hne] Hall]. repeat split; [done| |].
  - by destruct (members b).
  - apply Forall_forall. intros m Hm. rewrite forallb_forall in Hall.
    by apply Hall, list_elem_of_In.
Qed.

Lemma stripped_lines (blocks : list Block) :
  Forall (fun b => wf_block b = true) blocks ->
  filter (fun l => Str.truthy l = true) (Str.strip <$> report_lines blocks)
  = blocks ≫= (fun b => Str.strip (header b) :: stripped_members b).
Proof.
  induction 1 as [|b blocks Hb Hall IH]; [done|].
  unfold report_lines in *. cbn [mbind list_bind]. change (list_bind ?f) with (mbind f).
  rewrite fmap_app, filter_app, IH. f_equal.
  apply wf_block_inv in Hb as (Hh & _ & Hms). unfold block_lines.
  rewrite fmap_cons, filter_cons_True by (by destruct (Str.strip (header b))).
  f_equal. unfold stripped_members. induction Hms as [|m ms Hm Hms IHms]; [done|].
  rewrite !fmap_cons, filter_cons_True, IHms; [done|].
  by apply stripped_member.
Qed.

Lemma groupby_blocks (blocks : list Block) :
  Forall (fun b => wf_block b = true) blocks ->
  groupby is_header (blocks ≫= (fun b => Str.strip (header b) :: stripped_members b))
  = blocks ≫= (fun b => [(true, [Str.strip (header b)]); (false, stripped_members b)]).
Proof.
  induction 1 as [|b blocks Hb Hall IH]; [done|].
  cbn [mbind list_bind]. change (list_bind ?f) with (mbind f).
  apply wf_block_inv in Hb as (Hh & Hne & Hms).
  change ((?x :: ?l) ++ ?r) with (x :: (l ++ r)).
  rewrite groupby_cons, (groupby_run is_header false).
  - by rewrite Hh, IH.
  - unfold stripped_members. by destruct (members b).
  - unfold stripped_members. rewrite Forall_fmap.
    eapply Forall_impl; [done|]. intros m Hm. by apply stripped_member.
  - rewrite IH. destruct blocks; [done|]. cbn [mbind list_bind app].
    by intros k' g gs [= <- _ _].
Qed.

Lemma member_groups_blocks (blocks : list Block) :
  Forall (fun b => wf_block b = true) blocks ->
  member_groups (report_lines blocks) = stripped_members <$> blocks.
Proof.
  intros Hall. unfold member_groups.
  rewrite stripped_lines, groupby_blocks by done. clear Hall.
  induction blocks as [|b blocks IH]; [done|].
  cbn [mbind list_bind app]. change (list_bind ?f) with (mbind f).
  rewrite filter_cons_False by (simpl; auto).
  rewrite filter_cons_True by done. by rewrite !fmap_cons, IH.
Qed.

Lemma seqids_of_members (ms : list Member) :
  Forall (fun m => wf_member m = true) ms ->
  seqids_of ((fun m => Str.strip (member_line m)) <$> ms) = Return (seqid <$> ms).
Proof.
  induction 1 as [|m ms Hm Hms IH]; [done|].
  rewrite fmap_cons. cbn [seqids_of].
  destruct (stripped_member m Hm) as (_ & _ & ->). by rewrite IH.
Qed.

Lemma transform_all_blocks (d : bool) (blocks : list Block) :
  Forall (fun b => wf_block b = true) blocks ->
  transform_all d (stripped_members <$> blocks)
  = (filter (fun ids => kept d ids = true) (block_ids <$> blocks), None).
Proof.
  induction 1 as [|b blocks Hb Hall IH]; [done|].
  rewrite !fmap_cons. cbn [transform_all]. rewrite IH.
  apply wf_block_inv in Hb as (_ & Hne & Hms).
  unfold transform_cluster, stripped_members. rewrite seqids_of_members by done.
  rewrite filter_cons. change (block_ids b) with (seqid <$> members b).
  destruct (members b) as [|m [|m' ms]]; [done| |]; destruct d; cbn; done.
Qed.

End Report.

(** ** Writing and reading the cluster-membership format *)

Section Format.

Lemma split_plain (sep : ascii) (x : string) :
  Str.contains sep x = false -> Str.split sep x = [x].
Proof.
  induction x as [|c x IH]; [done|]. cbn [Str.contains Str.split].
  destruct (ascii_dec c sep); [done|]. intros H. by rewrite IH.
Qed.

Lemma split_app (sep : ascii) (x rest : string) :
  Str.contains sep x = false ->
  Str.split sep (x +:+ String sep rest) = x :: Str.split sep rest.
Proof.
  induction x as [|c x IH]; cbn [Str.contains Str.split String.append].
  - intros _. by destruct (ascii_dec sep sep).
  - destruct (ascii_dec c sep); [done|]. intros H. by rewrite IH.
Qed.

Lemma split_join (cluster : list string) :
  cluster <> [] ->
  Forall (fun id => Str.contains Str.tab id = false) cluster ->
  Str.split Str.tab (Str.join tb cluster) = cluster.
Proof.
  intros Hne Hall. induction Hall as [|x l Hx Hall IH]; [done|].
  destruct l as [|y l]; [by apply split_plain|].
  change (Str.join tb (x :: y :: l)) with (x +:+ String Str.tab (Str.join tb (y :: l))).
  rewrite split_app by done. by rewrite IH.
Qed.

Lemma contains_join (c : ascii) (cluster : list string) :
  c <> Str.tab ->
  Forall (fun id => Str.contains c id = false) cluster ->
  Str.contains c (Str.join tb cluster) = false.
Proof.
  intros Hc Hall. induction Hall as [|x l Hx Hall IH]; [done|].
  destruct l as [|y l]; [done|].
  change (Str.join tb (x :: y :: l)) with (x +:+ String Str.tab (Str.join tb (y :: l))).
  rewrite contains_app, Hx. cbn [Str.contains orb].
  by destruct (ascii_dec Str.tab c).
Qed.

Lemma readlines_line (x rest : string) :
  Str.contains Str.newline x = false ->
  Str.readlines (x +:+ nl +:+ rest) = (x +:+ nl) :: Str.readlines rest.
Proof.
  induction x as [|c x IH]; cbn [Str.contains Str.readlines String.append].
  - intros _. unfold nl. cbn [Str.readlines String.append].
    by destruct (ascii_dec Str.newline Str.newline).
  - destruct (ascii_dec c Str.newline); [done|]. intros H. by rewrite IH.
Qed.

Lemma chomp_line (x : string) :
  Str.contains Str.newline x = false -> chomp (x +:+ nl) = x.
Proof.
  induction x as [|c x IH]; cbn [Str.contains chomp String.append].
  - intros _. unfold nl. cbn [chomp].
    by destruct (ascii_dec Str.newline Str.newline).
  - destruct (ascii_dec c Str.newline); [done|]. intros H. by rewrite IH.
Qed.

Lemma plain_cluster_inv (cluster : list string) :
  plain_cluster cluster = true ->
  cluster <> []
  /\ Forall (fun id => Str.contains Str.tab id = false) cluster
  /\ Forall (fun id => Str.contains Str.newline id = false) cluster.
Proof.
  unfold plain_cluster. rewrite andb_true_iff, forallb_forall.
  intros [Hne Hall]. split; [by destruct cluster|].
  split; apply Forall_forall; intros id Hid%list_elem_of_In%Hall;
    unfold plain_id in Hid; rewrite andb_true_iff, !negb_true_iff in Hid; tauto.
Qed.

Lemma read_print_clusters (clusters : list (list string)) :
  Forall (fun cluster => plain_cluster cluster = true) clusters ->
  read_clusters (print_clusters clusters) = clusters.
Proof.
  induction 1 as [|cluster clusters Hc Hall IH]; [done|].
  apply plain_cluster_inv in Hc as (Hne & Htab & Hnl).
  pose proof (contains_join Str.newline cluster ltac:(done) Hnl) as Hj.
  unfold read_clusters in *. cbn [print_clusters foldr].
  rewrite readlines_line by done. rewrite fmap_cons, chomp_line by done.
  rewrite split_join by done. f_equal. apply IH.
Qed.

(** The identifiers that the parser extracts have no newline, and the
    clusters it yields are not empty. *)
Lemma findall_elem (k : nat) (s g : string) :
  g ∈ findall_from k s -> exists b, match_here b = Some g.
Proof.
  revert k. induction s as [|c s IH]; intros k; [by intros ?%elem_of_nil|].
  destruct k as [|k]; cbn [findall_from]; [|by apply IH].
  destruct (match_here (String c s)) as [g'|] eqn:E; [|by apply IH].
  intros [->|Hin]%elem_of_cons; [eauto|by eapply IH].
Qed.

Lemma seqids_of_newline_free (g ids : list string) :
  seqids_of g = Return ids ->
  length ids = length g
  /\ Forall (fun id => Str.contains Str.newline id = false) ids.
Proof.
  revert ids. induction g as [|l g IH]; intros ids; cbn [seqids_of].
  - by intros [= <-].
  - destruct (SEQID l) as [|x xs] eqn:E; [done|]. cbn.
    destruct (seqids_of g) as [ids'|]; [|done]. cbn. intros [= <-].
    destruct (IH _ eq_refl) as [Hlen Hall]. split; [by rewrite <- Hlen|].
    constructor; [|done].
    destruct (findall_elem 0 l x) as [b Hb]; [unfold SEQID in E; rewrite E; left|].
    by destruct (match_here_sound _ _ Hb) as (_ & _ & _ & ?).
Qed.

Lemma transform_all_newline_free (d : bool) (gs : list (list string)) :
  Forall (fun cluster =>
            cluster <> []
            /\ Forall (fun id => Str.contains Str.newline id = false) cluster)
         (transform_all d gs).1.
Proof.
  induction gs as [|g gs IH]; cbn [transform_all]; [constructor|].
  destruct (transform_cluster d g) as [r|] eqn:E; [|constructor]. cbn.
  destruct r as [[|x ids]|]; cbn; try done.
  constructor; [|done]. split; [done|].
  unfold transform_cluster in E. destruct (seqids_of g) as [ids'|] eqn:Es; [|done].
  cbn in E. apply seqids_of_newline_free in Es as [_ Hall].
  injection E as E.
  destruct d; [destruct ids' as [|? [|? ?]]|]; cbn in E; congruence.
Qed.

End Format.

(** ** Facts about the invoker *)

Section Invoker.
Context (env : Env).

Lemma lookup_foldr_delete (m : gmap string string) (l : list string) (p : string) :
  foldr base.delete m l !! p = if decide (p ∈ l) then None else m !! p.
Proof.
  induction l as [|q l IH]; cbn [foldr]; [done|].
  rewrite lookup_delete, IH.
  destruct (decide (q = p)) as [->|Hne].
  - rewrite decide_True; [done|left].
  - destruct (decide (p ∈ l)) as [Hin|Hnin].
    + rewrite decide_True; [done|by right].
    + rewrite decide_False; [done|]. by intros [->|?]%elem_of_cons.
Qed.

Lemma trace_release (s : Sample) (w : World) :
  trace (release s w) = trace w ++ [EvRelease (name s)].
Proof. done. Qed.

Lemma fs_release (s : Sample) (w : World) :
  fs (release s w) = drop_files s (fs w).
Proof. done. Qed.

Lemma fallible_world {A} (kinds : list Exn) (f : M A) (w : World) :
  (fallible kinds f w).2 = (f w).2.
Proof.
  unfold fallible. destruct (f w) as [[a|e] w']; [done|].
  by destruct (decide (e ∈ kinds)).
Qed.

Lemma cdhit_body_raises (o : CdhitOptions) (input : list string) (output : string)
    (w w' : World) (e : Exn) :
  cdhit_body env o input output w = (Raise e, w') -> e = RuntimeError.
Proof.
  unfold cdhit_body. destruct (which env CDHIT) as [exe|]; [|by intros [= <- _]].
  destruct (Str.truthy exe); [|by intros [= <- _]].
  unfold mbind, M_bind, sp_run. cbn.
  destruct (decide _); [done|]. by intros [= <- _].
Qed.

(** The wrapper around [cdhit] absorbs every exception of its body:
    [cdhit] returns, with an absent result where the body raised. *)
Lemma cdhit_returns (o : CdhitOptions) (input : list string) (output : string)
    (w : World) :
  exists r, (cdhit env o input output w).1 = Return r
    /\ (r = None \/ r = Some (output, output +:+ ".clstr")).
Proof.
  unfold cdhit, fallible.
  destruct (cdhit_body env o input output w) as [[a|e] w'] eqn:E.
  - exists (Some a). split; [done|]. right. f_equal.
    unfold cdhit_body in E. destruct (which env CDHIT) as [exe|]; [|done].
    destruct (Str.truthy exe); [|done].
    unfold mbind, M_bind, sp_run in E. cbn in E.
    destruct (decide _); [|done]. by injection E as <- _.
  - apply cdhit_body_raises in E as ->. exists None.
    rewrite decide_True; [auto|]. left.
Qed.

Lemma trace_cdhit (o : CdhitOptions) (input : list string) (output : string)
    (w : World) :
  trace (cdhit env o input output w).2 = trace w.
Proof.
  unfold cdhit. rewrite fallible_world. unfold cdhit_body.
  destruct (which env CDHIT) as [exe|]; [|done].
  destruct (Str.truthy exe); [|done].
  unfold mbind, M_bind, sp_run. cbn. by destruct (decide _).
Qed.

Lemma trace_write_clusters (d : bool) (clusterfile output_ : string) (w : World) :
  trace (write_clusters env d clusterfile output_ w).2 = trace w.
Proof.
  unfold write_clusters. destruct (fs w !! clusterfile); [|done].
  destruct (creatable env output_); [|done].
  by destruct (parse_cdhit_clusters _ _).2.
Qed.

Lemma os_remove_cases (path : string) (w : World) :
  (os_remove path w = (Raise FileNotFoundError, w) /\ fs w !! path = None)
  \/ (exists text, fs w !! path = Some text
       /\ os_remove path w
          = (Return tt, add_event (EvRemove path) (set_fs (base.delete path (fs w)) w))).
Proof. unfold os_remove. destruct (fs w !! path); eauto. Qed.

(** The body of [with input:] adds only file removals to the trace. *)
Lemma trace_cdpick_scope (input : Sample) (output : option string)
    (output_ t : string) (d : bool) (o : CdhitOptions) (w : World) :
  exists evs,
    trace (cdpick_scope env input output output_ t d o w).2 = trace w ++ evs
    /\ forallb is_remove evs = true.
Proof.
  unfold cdpick_scope, mbind, M_bind.
  pose proof (trace_cdhit o (files input) t w) as Hc.
  destruct (cdhit env o (files input) t w) as [[[[seqs clusterfile]|]|e] w1];
    cbn in Hc; try (exists []; by rewrite app_nil_r).
  pose proof (trace_write_clusters d clusterfile output_ w1) as Hw.
  destruct (write_clusters env d clusterfile output_ w1) as [[[]|e] w2];
    cbn in Hw; [|exists []; rewrite app_nil_r; cbn; split; congruence].
  destruct (os_remove_cases seqs w2) as [[-> _]|(v & _ & ->)];
    [exists []; rewrite app_nil_r; cbn; split; congruence|].
  match goal with |- context [os_remove clusterfile ?w'] =>
    destruct (os_remove_cases clusterfile w') as [[-> _]|(v' & _ & ->)] end; cbn.
  - exists [EvRemove seqs]. split; [|done]. by rewrite Hw, Hc.
  - exists [EvRemove seqs; EvRemove clusterfile]. split; [|done].
    rewrite Hw, Hc, <- app_assoc. done.
Qed.

Lemma os_path_exists_true (path : string) (w : World) :
  path ∈ dirs w \/ is_Some (fs w !! path) ->
  os_path_exists path w = (Return true, w).
Proof. intros H. unfold os_path_exists. by rewrite bool_decide_eq_true_2. Qed.

(** Once the temporary directory is found, [cdpick] runs the body of
    [with input:] on the two paths, and releases the input. *)
Lemma cdpick_world (tmpdir : string) (input : Sample) (output : option string)
    (d : bool) (o : CdhitOptions) (w : World) :
  tmpdir ∈ dirs w \/ is_Some (fs w !! tmpdir) ->
  let w1 := add_event (EvAcquire (name input))
              (next_rng (if output is None then next_rng w else w)) in
  let out := cdpick_scope env input output (output_path env tmpdir output w)
               (tempout_path env tmpdir output w) d o w1 in
  cdpick_body env tmpdir input output d o w = (out.1, release input out.2).
Proof.
  intros Hdir. unfold cdpick_body, mbind, M_bind.
  rewrite os_path_exists_true by done. cbn [negb].
  destruct output as [path|]; done.
Qed.

End Invoker.

Section Scope.
Context (env : Env).

Lemma cdhit_success (o : CdhitOptions) (input : list string) (output exe : string)
    (w : World) (files' : gmap string string) :
  which env CDHIT = Some exe -> Str.truthy exe = true ->
  run env (command exe o input output) (fs w) = (0%Z, files') ->
  cdhit env o input output w
  = (Return (Some (output, output +:+ ".clstr")), set_fs files' w).
Proof.
  intros Hw He Hr. unfold cdhit, fallible, cdhit_body. rewrite Hw, He.
  unfold mbind, M_bind, sp_run. by rewrite Hr.
Qed.

(** A tool that is not found, or that exits with a non-zero status,
    makes [cdhit] return nothing. *)
Lemma cdhit_failure (o : CdhitOptions) (input : list string) (output : string)
    (w : World) :
  (forall exe, which env CDHIT = Some exe -> Str.truthy exe = true ->
               (run env (command exe o input output) (fs w)).1 <> 0%Z) ->
  (cdhit env o input output w).1 = Return None.
Proof.
  intros Hfail. unfold cdhit, fallible, cdhit_body.
  destruct (which env CDHIT) as [exe|] eqn:Hw; [|done].
  destruct (Str.truthy exe) eqn:He; [|done].
  unfold mbind, M_bind, sp_run. cbn [fst snd].
  destruct (decide _) as [Hz|]; [|done]. by destruct (Hfail exe).
Qed.

Lemma write_clusters_success (d : bool) (clusterfile output_ : string)
    (w w' : World) :
  write_clusters env d clusterfile output_ w = (Return tt, w') ->
  trace w' = trace w /\ exists text, fs w' = <[output_ := text]> (fs w).
Proof.
  unfold write_clusters. destruct (fs w !! clusterfile); [|done].
  destruct (creatable env output_); [|done].
  destruct (parse_cdhit_clusters _ _).2; [done|]. intros [= <-].
  split; [done|]. eexists. cbn. by rewrite insert_insert_eq.
Qed.

Lemma write_clusters_raises (d : bool) (clusterfile output_ report : string)
    (w : World) (e : Exn) :
  fs w !! clusterfile = Some report -> creatable env output_ = true ->
  output_ <> clusterfile ->
  (parse_cdhit_clusters d (Str.readlines report)).2 = Some e ->
  (write_clusters env d clusterfile output_ w).1 = Raise e.
Proof.
  intros Hf Hc Hne Hp. unfold write_clusters. rewrite Hf, Hc.
  rewrite lookup_insert_ne, Hf by done.
  change (default EmptyString (Some report)) with report. by rewrite Hp.
Qed.

Lemma cdpick_scope_success (input : Sample) (output : option string)
    (output_ t : string) (d : bool) (o : CdhitOptions) (w w' : World) (sc : Sample) :
  cdpick_scope env input output output_ t d o w = (Return sc, w') ->
  sc = SampleClusters (name input) output_ (bool_decide (output = None))
  /\ trace w' = trace w ++ [EvRemove t; EvRemove (t +:+ ".clstr")]
  /\ fs w' !! t = None /\ fs w' !! (t +:+ ".clstr") = None
  /\ (output_ <> t -> output_ <> t +:+ ".clstr" -> is_Some (fs w' !! output_)).
Proof.
  unfold cdpick_scope, mbind, M_bind.
  destruct (cdhit_returns env o (files input) t w) as (r & Hr & Hcases).
  pose proof (trace_cdhit env o (files input) t w) as Hc.
  destruct (cdhit env o (files input) t w) as [r' w1]. cbn in Hr, Hc. subst r'.
  destruct Hcases as [->| ->]; [done|].
  destruct (write_clusters env d (t +:+ ".clstr") output_ w1) as [[[]|e] w2] eqn:Ew;
    [|done].
  apply write_clusters_success in Ew as (Hw & text & Hfs).
  destruct (os_remove_cases t w2) as [[-> _]|(v & _ & ->)]; [done|].
  match goal with |- context [os_remove _ ?w3] =>
    destruct (os_remove_cases (t +:+ ".clstr") w3) as [[-> _]|(v' & _ & ->)] end;
    [done|].
  intros [= <- <-]. cbn [fs trace set_fs add_event]. rewrite Hw, Hc.
  split; [done|]. split; [by rewrite <- app_assoc|]. split; [|split].
  - rewrite lookup_delete, lookup_delete. by repeat case_decide.
  - by rewrite lookup_delete_eq.
  - intros H1 H2. rewrite !lookup_delete_ne, Hfs, lookup_insert_eq by done. eauto.
Qed.

Lemma cdpick_scope_raises (input : Sample) (output : option string)
    (output_ t exe report : string) (d : bool) (o : CdhitOptions) (w : World)
    (files' : gmap string string) (e : Exn) :
  which env CDHIT = Some exe -> Str.truthy exe = true ->
  run env (command exe o (files input) t) (fs w) = (0%Z, files') ->
  files' !! (t +:+ ".clstr") = Some report ->
  creatable env output_ = true -> output_ <> t +:+ ".clstr" ->
  (parse_cdhit_clusters d (Str.readlines report)).2 = Some e ->
  (cdpick_scope env input output output_ t d o w).1 = Raise e.
Proof.
  intros Hw He Hr Hf Hc Hne Hp. unfold cdpick_scope, mbind, M_bind.
  rewrite (cdhit_success o _ _ exe w files') by done.
  pose proof (write_clusters_raises d (t +:+ ".clstr") output_ report
                (set_fs files' w) e Hf Hc Hne Hp) as Hwr.
  destruct (write_clusters env d _ output_ (set_fs files' w)) as [r w2].
  cbn in Hwr. by subst r.
Qed.

(** With the tool failing, the body of [with input:] unpacks an
    absent result. *)
Lemma cdpick_scope_tool_failure (input : Sample) (output : option string)
    (output_ t : string) (d : bool) (o : CdhitOptions) (w : World) :
  (forall exe, which env CDHIT = Some exe -> Str.truthy exe = true ->
               (run env (command exe o (files input) t) (fs w)).1 <> 0%Z) ->
  (cdpick_scope env input output output_ t d o w).1 = Raise TypeError.
Proof.
  intros Hfail. unfold cdpick_scope, mbind, M_bind.
  pose proof (cdhit_failure o (files input) t w Hfail) as Hc.
  destruct (cdhit env o (files input) t w) as [r w1]. cbn in Hc. by subst r.
Qed.

Lemma fallible_passes {A} (kinds : list Exn) (f : M A) (w : World) (e : Exn) :
  (f w).1 = Raise e -> e ∉ kinds -> (fallible kinds f w).1 = Raise e.
Proof.
  intros Hf He. unfold fallible. destruct (f w) as [r w']. cbn in Hf. subst r.
  by rewrite decide_False.
Qed.

End Scope.

Section Cdpick.
Context (env : Env).

Lemma parse_missing_identifier (d : bool) (handle : list string) (l : string) :
  l ∈ handle -> is_member_line l -> ~ carries_identifier l ->
  (parse_cdhit_clusters d handle).2 = Some IndexError.
Proof.
  intros Hin Hm Hno. destruct (member_groups_elem handle l Hin Hm) as (g & Hg & Hl).
  unfold parse_cdhit_clusters. apply (transform_all_missing d _ g Hg).
  apply (seqids_of_missing g (Str.strip l) Hl). by apply SEQID_strip_none.
Qed.

Lemma no_dot_no_identifier (l : string) :
  Str.contains "." l = false -> ~ carries_identifier l.
Proof.
  intros Hl (a & id & b & -> & _). rewrite contains_app in Hl.
  apply orb_false_elim in Hl as [_ Hl]. cbn [String.append Str.contains] in Hl.
  destruct (ascii_dec ">" "."); [done|]. rewrite contains_app in Hl.
  apply orb_false_elim in Hl as [_ Hl]. cbn [String.append Str.contains] in Hl.
  by destruct (ascii_dec "." ".").
Qed.

Lemma cdpick_body_found (tmpdir : string) (input : Sample) (output : option string)
    (d : bool) (o : CdhitOptions) (w w' : World) (sc : Sample) :
  cdpick_body env tmpdir input output d o w = (Return sc, w') ->
  tmpdir ∈ dirs w \/ is_Some (fs w !! tmpdir).
Proof.
  unfold cdpick_body, mbind, M_bind, os_path_exists.
  destruct (bool_decide _) eqn:E; [|done]. intros _.
  by apply bool_decide_eq_true in E.
Qed.

Lemma cdpick_returned (tmpdir : string) (input : Sample) (output : option string)
    (d : bool) (o : CdhitOptions) (w w' : World) (sc : Sample) :
  cdpick env tmpdir input output d o w = (Return (Some sc), w') ->
  cdpick_body env tmpdir input output d o w = (Return sc, w').
Proof.
  unfold cdpick, fallible.
  destruct (cdpick_body env tmpdir input output d o w) as [[a|e] w1]; [congruence|].
  by destruct (decide _).
Qed.

(** The tool failing for a sample makes [cdpick] raise [TypeError]:
    [cdhit] has absorbed its own [RuntimeError], and [cdpick] unpacks
    the absent result. *)
Lemma cdpick_tool_failure (tmpdir : string) (input : Sample) (output : option string)
    (d : bool) (o : CdhitOptions) (w : World) :
  tmpdir ∈ dirs w \/ is_Some (fs w !! tmpdir) ->
  (forall exe, which env CDHIT = Some exe -> Str.truthy exe = true ->
     (run env (command exe o (files input) (tempout_path env tmpdir output w))
        (fs w)).1 <> 0%Z) ->
  (cdpick env tmpdir input output d o w).1 = Raise TypeError.
Proof.
  intros Hdir Hfail. unfold cdpick. apply fallible_passes.
  - rewrite cdpick_world by done. cbn [fst].
    apply cdpick_scope_tool_failure. by destruct output.
  - by intros [?|[?|?%elem_of_nil]%elem_of_cons]%elem_of_cons.
Qed.

End Cdpick.

(** ** Facts about the stages and the compiler *)

Section Pipeline.

Lemma find_alternative (l : list Map) (m : Map) :
  NoDup (domain <$> l) -> m ∈ l ->
  List.find (fun m' => bool_decide (domain m' = domain m)) l = Some m.
Proof.
  induction l as [|x l IH]; [by intros _ ?%elem_of_nil|].
  rewrite fmap_cons, NoDup_cons. intros [Hx Hl] Hin. cbn [List.find].
  apply elem_of_cons in Hin as [->|Hin].
  - by rewrite bool_decide_eq_true_2.
  - rewrite bool_decide_eq_false_2; [by apply IH|].
    intros Heq. apply Hx. rewrite Heq. by apply list_elem_of_fmap_2.
Qed.

Lemma find_no_alternative (l : list Map) (t : RepType) :
  (forall m, m ∈ l -> domain m <> t) ->
  List.find (fun m => bool_decide (domain m = t)) l = None.
Proof.
  induction l as [|x l IH]; [done|]. intros Hl. cbn [List.find].
  rewrite bool_decide_eq_false_2 by (apply Hl; left).
  apply IH. intros m Hm. apply Hl. by right.
Qed.

(** The walk stops at the first stage without an alternative. *)
Lemma select_maps_gap (front : list Router) (r : Router) (back : list Router)
    (initial t : RepType) :
  Forall wf_router front -> carries front initial t -> incompatible r t ->
  select_maps (front ++ r :: back) initial
  = Raise (TypeMismatch (rname r) t (domain <$> maps r)).
Proof.
  intros Hwf Hc Hgap. induction Hc as [t|r' rest m t t' Hm Hdom Hc IH].
  - cbn [app select_maps]. by rewrite find_no_alternative.
  - apply Forall_cons in Hwf as [Hr' Hrest]. cbn [app select_maps].
    rewrite <- Hdom, find_alternative by done. by rewrite IH.
Qed.

Lemma size_filt_spec (env : Env) (nseq : Z) (samples : list Sample) (w : World) :
  size_filt env nseq samples w
  = (Return (filter (fun s => passes env nseq s = true) samples),
     {| fs := foldl (fun m s => drop_files s m) (fs w)
                (filter (fun s => passes env nseq s = false) samples);
        dirs := dirs w;
        rng := rng w;
        trace := trace w ++ (samples ≫= filter_events env nseq) |}).
Proof.
  revert w. induction samples as [|s samples IH]; intros w.
  - cbn. destruct w. cbn. by rewrite app_nil_r.
  - cbn [size_filt]. unfold mbind at 1, M_bind at 1, sample_parse.
    rewrite Z.geb_leb. fold (passes env nseq s).
    cbn [mbind list_bind]. change (foldr _ _ samples) with (samples ≫= filter_events env nseq).
    unfold filter_events at 1.
    destruct (passes env nseq s) eqn:Hp.
    + unfold mbind at 1, M_bind at 1. rewrite IH.
      rewrite filter_cons_True, filter_cons_False by (done || by rewrite Hp).
      cbn. by rewrite <- app_assoc.
    + unfold mbind at 1, M_bind at 1, sample_release. rewrite IH.
      rewrite filter_cons_False, filter_cons_True by (done || by rewrite Hp).
      cbn. by rewrite <- !app_assoc.
Qed.

Lemma input_samples_delete (single_t : RepType) (rows : list (string * list string))
    (samples : list Sample) :
  input_samples single_t rows = Return samples ->
  Forall (fun s => delete s = false) samples.
Proof.
  revert samples. induction rows as [|[name files] rows IH]; intros samples.
  - intros [= <-]. constructor.
  - cbn [input_samples]. unfold new_sample.
    destruct single_t as [f|f]; [|done].
    destruct (decide _); [|done]. cbn.
    destruct (input_samples (SampleT f) rows) as [rest|]; [|done]. cbn.
    intros [= <-]. constructor; [done|]. by apply IH.
Qed.

Lemma drop_files_not_owned (samples : list Sample) (m : gmap string string) :
  Forall (fun s => delete s = false) samples ->
  foldl (fun m s => drop_files s m) m samples = m.
Proof.
  intros Hall. revert m. induction Hall as [|s samples Hs Hall IH]; intros m; [done|].
  cbn [foldl]. unfold drop_files at 2. rewrite Hs. apply IH.
Qed.

End Pipeline.

(** ** More facts about stripping and the regular expression *)

Section StripMore.

Lemma lstrip_cons_nonspace (c : ascii) (s : string) :
  Str.isspace c = false -> Str.lstrip (String c s) = String c s.
Proof. intros Hc. cbn [Str.lstrip]. by rewrite Hc. Qed.

Lemma lstrip_app_nonspace (a r : string) (c : ascii) :
  Str.isspace c = false ->
  Str.lstrip (a +:+ String c r) = Str.lstrip a +:+ String c r.
Proof.
  intros Hc. induction a as [|x a IH]; cbn [String.append Str.lstrip].
  - by rewrite Hc.
  - by destruct (Str.isspace x).
Qed.

Lemma rstrip_idemp (s : string) : Str.rstrip (Str.rstrip s) = Str.rstrip s.
Proof.
  induction s as [|c s IH]; [done|]. cbn [Str.rstrip].
  destruct (Str.rstrip s) as [|x r] eqn:E.
  - destruct (Str.isspace c) eqn:Hc; [done|]. cbn [Str.rstrip]. by rewrite Hc.
  - change (Str.rstrip (String c (String x r)))
      with (match Str.rstrip (String x r) with
            | EmptyString => if Str.isspace c then EmptyString else String c EmptyString
            | r' => String c r'
            end).
    by rewrite IH.
Qed.

Lemma lstrip_head (s : string) :
  match Str.lstrip s with
  | EmptyString => True
  | String c _ => Str.isspace c = false
  end.
Proof.
  induction s as [|c s IH]; [done|]. cbn [Str.lstrip].
  by destruct (Str.isspace c) eqn:Hc.
Qed.

Lemma strip_idemp (s : string) : Str.strip (Str.strip s) = Str.strip s.
Proof.
  unfold Str.strip. pose proof (lstrip_head s) as Hh.
  destruct (Str.lstrip s) as [|c t]; [done|].
  rewrite rstrip_cons_nonspace by done.
  rewrite lstrip_cons_nonspace by done.
  rewrite <- (rstrip_cons_nonspace c t) by done. apply rstrip_idemp.
Qed.

Lemma rstrip_dots (b : string) :
  Str.rstrip ("..." +:+ b) = "..." +:+ Str.rstrip b.
Proof. cbn [String.append]. by rewrite !rstrip_cons_nonspace. Qed.

(** Stripping a line keeps the identifier it carries. *)
Lemma carries_identifier_strip (l : string) :
  carries_identifier l -> carries_identifier (Str.strip l).
Proof.
  intros (a & id & b & -> & Hid & Hnl). unfold Str.strip.
  exists (Str.lstrip a), id, (Str.rstrip b). split; [|done].
  change (a +:+ ">" +:+ id +:+ "..." +:+ b)
    with (a +:+ String ">" (id +:+ "..." +:+ b)).
  rewrite lstrip_app_nonspace by done.
  assert (Hd : Str.rstrip ("..." +:+ b) <> EmptyString) by by rewrite rstrip_dots.
  assert (Hi : Str.rstrip (id +:+ "..." +:+ b) = id +:+ "..." +:+ Str.rstrip b).
  { by rewrite rstrip_app, rstrip_dots. }
  assert (Hg : Str.rstrip (String ">" (id +:+ "..." +:+ b))
               = String ">" (id +:+ "..." +:+ Str.rstrip b)).
  { by rewrite rstrip_cons_nonspace, Hi. }
  rewrite rstrip_app; rewrite Hg; done.
Qed.

End StripMore.

Section RegexMore.

Lemma until_dots_total (t r : string) :
  Str.contains Str.newline t = false ->
  is_Some (until_dots (t +:+ "..." +:+ r)).
Proof.
  induction t as [|c t IH]; [by eexists|].
  cbn [Str.contains]. destruct (ascii_dec c Str.newline) as [|Hc]; [done|].
  intros Ht. rewrite until_dots_eq.
  destruct (Str.startswith "..." _); [by eexists|].
  remember ("..." +:+ r) as q. cbn [String.append].
  destruct (ascii_dec c Str.newline); [done|].
  destruct (IH Ht) as [g ->]. by eexists.
Qed.

Lemma match_here_total (id r : string) :
  id <> EmptyString -> Str.contains Str.newline id = false ->
  is_Some (match_here (">" +:+ id +:+ "..." +:+ r)).
Proof.
  destruct id as [|c t]; [done|]. intros _. cbn [Str.contains].
  destruct (ascii_dec c Str.newline) as [|Hc]; [done|]. intros Ht.
  destruct (until_dots_total t r Ht) as [g Hg].
  remember ("..." +:+ r) as q. cbn [String.append match_here].
  destruct (ascii_dec ">" ">"); [|done].
  destruct (ascii_dec c Str.newline); [done|]. rewrite Hg. by eexists.
Qed.

Lemma findall_complete (a b : string) :
  is_Some (match_here b) -> findall_from 0 (a +:+ b) <> [].
Proof.
  intros [g Hg]. induction a as [|c a IH]; cbn [String.append].
  - destruct b as [|x b]; [done|]. cbn [findall_from]. by rewrite Hg.
  - cbn [findall_from]. by destruct (match_here (String c (a +:+ b))).
Qed.

Lemma SEQID_complete (s : string) : carries_identifier s -> SEQID s <> [].
Proof.
  intros (a & id & b & -> & Hid & Hnl).
  apply findall_complete. by apply match_here_total.
Qed.

Lemma until_dots_lazy (s g : string) :
  until_dots s = Some g -> lazy_clean g = true.
Proof.
  revert g. induction s as [|c s IH]; intros g; rewrite until_dots_eq.
  - cbn. discriminate.
  - destruct (Str.startswith "..." (String c s)) eqn:E; [by intros [= <-]|].
    destruct (ascii_dec c Str.newline) as [|Hc]; [done|].
    destruct (until_dots s) as [g'|] eqn:Eg; [|done]. intros [= <-].
    cbn [lazy_clean]. rewrite (IH _ eq_refl), andb_true_r.
    destruct (ascii_dec c Str.newline); [done|]. rewrite andb_true_r.
    destruct (until_dots_sound _ _ Eg) as (r & -> & _).
    apply negb_true_iff.
    rewrite <- (startswith_app "..." (String c g' +:+ "...") r)
      by (rewrite length_append; cbn; lia).
    rewrite append_assoc. exact E.
Qed.

Lemma match_here_valid_group (s g : string) :
  match_here s = Some g -> valid_seqid g = true.
Proof.
  destruct s as [|x [|c s]]; try done. unfold match_here.
  destruct (ascii_dec x ">"); [|done].
  destruct (ascii_dec c Str.newline) as [|Hc] eqn:E; [done|].
  destruct (until_dots s) as [g'|] eqn:Eg; [|done]. intros [= <-].
  cbn [valid_seqid]. rewrite E. by rewrite (until_dots_lazy _ _ Eg).
Qed.

Lemma findall_short (k : nat) (s : string) :
  (String.length s <= k)%nat -> findall_from k s = [].
Proof.
  revert k. induction s as [|c s IH]; intros k Hk; [done|].
  destruct k as [|k]; cbn in Hk; [lia|]. cbn [findall_from]. apply IH. lia.
Qed.

(** The characters of a match are passed over; the search goes on
    behind it. *)
Lemma findall_skip (a q : string) :
  findall_from (String.length a) (a +:+ q) = findall_from 0 q.
Proof. induction a as [|c a IH]; [done|]. cbn [String.length String.append findall_from]. done. Qed.

Lemma SEQID_app (p id q : string) :
  Str.contains ">" p = false -> valid_seqid id = true ->
  SEQID (p +:+ ">" +:+ id +:+ "..." +:+ q) = id :: SEQID q.
Proof.
  intros Hp Hid. unfold SEQID. rewrite findall_skip_prefix by done.
  pose proof (match_here_valid id q Hid) as Hm.
  pose proof (findall_skip (id +:+ "...") q) as Hs.
  rewrite length_append, append_assoc in Hs.
  remember (id +:+ "..." +:+ q) as r.
  cbn [String.append] in *. cbn [findall_from]. rewrite Hm. f_equal.
  by rewrite <- Hs.
Qed.

End RegexMore.

(** ** More facts about the parser *)

Section ParserMore.

Lemma strip_fmap_idemp (handle : list string) :
  Str.strip <$> (Str.strip <$> handle) = Str.strip <$> handle.
Proof.
  induction handle as [|l handle IH]; [done|].
  by rewrite !fmap_cons, strip_idemp, IH.
Qed.

Lemma member_groups_strip (handle : list string) :
  member_groups (Str.strip <$> handle) = member_groups handle.
Proof. unfold member_groups. by rewrite strip_fmap_idemp. Qed.

Lemma member_groups_blank (before after : list string) (blank : string) :
  Str.strip blank = EmptyString ->
  member_groups (before ++ blank :: after) = member_groups (before ++ after).
Proof.
  intros Hb. unfold member_groups.
  rewrite !fmap_app, fmap_cons, !filter_app, filter_cons_False; [done|].
  by rewrite Hb.
Qed.

(** With [drop_empty] the stream is the one without it, less the
    clusters of a single identifier; it ends the same way. *)
Lemma transform_all_drop (gs : list (list string)) :
  transform_all true gs
  = (filter (fun ids => (1 < length ids)%nat) (transform_all false gs).1,
     (transform_all false gs).2).
Proof.
  induction gs as [|g gs IH]; [done|]. cbn [transform_all].
  unfold transform_cluster. destruct (seqids_of g) as [ids|e]; [|done].
  cbn. rewrite IH. cbn [fst snd].
  destruct ids as [|x [|y ids]]; cbn; done.
Qed.

Lemma seqids_of_valid (g ids : list string) :
  seqids_of g = Return ids ->
  length ids = length g /\ Forall (fun id => valid_seqid id = true) ids.
Proof.
  revert ids. induction g as [|l g IH]; intros ids; cbn [seqids_of].
  - by intros [= <-].
  - destruct (SEQID l) as [|x xs] eqn:E; [done|]. cbn.
    destruct (seqids_of g) as [ids'|]; [|done]. cbn. intros [= <-].
    destruct (IH _ eq_refl) as [Hlen Hall]. split; [by rewrite <- Hlen|].
    constructor; [|done].
    destruct (findall_elem 0 l x) as [b Hb]; [unfold SEQID in E; rewrite E; left|].
    by apply (match_here_valid_group b).
Qed.

Lemma transform_all_valid (d : bool) (gs : list (list string)) :
  Forall (fun ids => ((if d then 2 else 1) <= length ids)%nat
                     /\ Forall (fun id => valid_seqid id = true) ids)
         (transform_all d gs).1.
Proof.
  induction gs as [|g gs IH]; cbn [transform_all]; [constructor|].
  unfold transform_cluster. destruct (seqids_of g) as [ids|e] eqn:Es; [|constructor].
  apply seqids_of_valid in Es as [_ Hall]. cbn.
  destruct d; destruct ids as [|x [|y ids]]; cbn; try done;
    (constructor; [split; [cbn; lia|done]|done]).
Qed.

(** The lines of a member group are stripped member lines of the
    handle. *)
Lemma member_groups_lines (handle : list string) (g : list string) (x : string) :
  g ∈ member_groups handle -> x ∈ g ->
  exists l, l ∈ handle /\ x = Str.strip l /\ is_member_line l.
Proof.
  unfold member_groups. intros ([k g'] & -> & Hin)%list_elem_of_fmap Hx.
  apply list_elem_of_filter in Hin as [Hk Hin]. cbn [fst snd] in Hk, Hx.
  pose proof (groupby_keys is_header
                (filter (fun l => Str.truthy l = true) (Str.strip <$> handle))) as Hkeys.
  rewrite Forall_forall in Hkeys. specialize (Hkeys _ Hin). cbn [fst snd] in Hkeys.
  rewrite Forall_forall in Hkeys. specialize (Hkeys _ Hx).
  assert (Hxl : x ∈ filter (fun l => Str.truthy l = true) (Str.strip <$> handle)).
  { rewrite <- (groupby_concat is_header). apply list_elem_of_join.
    exists g'. split; [done|]. apply list_elem_of_fmap. by exists (k, g'). }
  apply list_elem_of_filter in Hxl as [Ht (l & -> & Hl)%list_elem_of_fmap].
  exists l. split; [done|]. split; [done|]. split; [done|].
  rewrite Hkeys. by destruct k.
Qed.

Lemma seqids_of_returns (g : list string) :
  Forall (fun x => SEQID x <> []) g -> exists ids, seqids_of g = Return ids.
Proof.
  induction 1 as [|x g Hx Hall [ids IH]]; [by eexists|].
  cbn [seqids_of]. destruct (SEQID x); [done|]. cbn. rewrite IH. by eexists.
Qed.

Lemma transform_all_returns (d : bool) (gs : list (list string)) :
  Forall (Forall (fun x => SEQID x <> [])) gs -> (transform_all d gs).2 = None.
Proof.
  induction 1 as [|g gs Hg Hall IH]; [done|]. cbn [transform_all].
  unfold transform_cluster. destruct (seqids_of_returns g Hg) as [ids ->]. cbn.
  exact IH.
Qed.

(** The parser ends without an exception exactly when every member
    line carries an identifier. *)
Lemma parse_returns_iff (d : bool) (handle : list string) :
  (parse_cdhit_clusters d handle).2 = None
  <-> forall l, l ∈ handle -> is_member_line l -> carries_identifier l.
Proof.
  split.
  - intros Hnone l Hin Hm.
    destruct (SEQID (Str.strip l)) eqn:E.
    + destruct (member_groups_elem handle l Hin Hm) as (g & Hg & Hl).
      pose proof (transform_all_missing d _ g Hg
                    (seqids_of_missing g (Str.strip l) Hl E)) as Hraise.
      unfold parse_cdhit_clusters in Hnone. congruence.
    + destruct (strip_infix l) as (a & b & Hl). rewrite Hl.
      apply carries_identifier_infix, SEQID_sound. by rewrite E.
  - intros Hall. unfold parse_cdhit_clusters. apply transform_all_returns.
    apply Forall_forall. intros g Hg. apply Forall_forall. intros x Hx.
    destruct (member_groups_lines handle g x Hg Hx) as (l & Hl & -> & Hm).
    by apply SEQID_complete, carries_identifier_strip, Hall.
Qed.

End ParserMore.

(** ** More facts about the invoker *)

Section CdpickMore.
Context (env : Env).



Lemma fallible_raises {A} (kinds : list Exn) (f : M A) (w w' : World) (e : Exn) :
  f w = (Raise e, w') -> e ∉ kinds -> fallible kinds f w = (Raise e, w').
Proof. intros Hf He. unfold fallible. rewrite Hf. by rewrite decide_False. Qed.



Lemma cdhit_failed (o : CdhitOptions) (input : list string) (output : string)
    (w : World) :
  (forall exe, which env CDHIT = Some exe -> Str.truthy exe = true ->
               (run env (command exe o input output) (fs w)).1 <> 0%Z) ->
  exists w', cdhit env o input output w = (Return None, w') /\ trace w' = trace w.
Proof.
  intros Hfail. pose proof (cdhit_failure env o input output w Hfail) as Hr.
  pose proof (trace_cdhit env o input output w) as Ht.
  destruct (cdhit env o input output w) as [r w']. cbn in Hr, Ht. subst r.
  by exists w'.
Qed.






(** The body of [with input:] when the tool fails. *)
Lemma cdpick_scope_unpacks_none (input : Sample) (output : option string)
    (output_ t : string) (d : bool) (o : CdhitOptions) (w : World) :
  (forall exe, which env CDHIT = Some exe -> Str.truthy exe = true ->
               (run env (command exe o (files input) t) (fs w)).1 <> 0%Z) ->
  exists w', cdpick_scope env input output output_ t d o w = (Raise TypeError, w')
             /\ trace w' = trace w.
Proof.
  intros Hfail. unfold cdpick_scope, mbind, M_bind.
  destruct (cdhit_failed o (files input) t w Hfail) as (w' & -> & Ht).
  by exists w'.
Qed.

Lemma cdpick_entered (tmpdir : string) (input : Sample) (output : option string)
    (w : World) :
  let w1 := add_event (EvAcquire (name input))
              (next_rng (if output is None then next_rng w else w)) in
  fs w1 = fs w /\ trace w1 = trace w ++ [EvAcquire (name input)].
Proof. by destruct output. Qed.

Lemma not_absorbed_TypeError : TypeError ∉ [RuntimeError; FileNotFoundError].
Proof. by intros [?|[?|?%elem_of_nil]%elem_of_cons]%elem_of_cons. Qed.

Lemma not_absorbed_ValueError : ValueError ∉ [RuntimeError; FileNotFoundError].
Proof. by intros [?|[?|?%elem_of_nil]%elem_of_cons]%elem_of_cons. Qed.


End CdpickMore.

(** ** Facts about the exceptions of the invoker *)

Section CdpickExceptions.
Context (env : Env).

Lemma cdpick_no_tmpdir (tmpdir : string) (input : Sample) (output : option string)
    (d : bool) (o : CdhitOptions) (w : World) :
  ~ (tmpdir ∈ dirs w \/ is_Some (fs w !! tmpdir)) ->
  cdpick env tmpdir input output d o w = (Raise ValueError, w).
Proof.
  intros Hno. unfold cdpick. apply fallible_raises; [|apply not_absorbed_ValueError].
  unfold cdpick_body, mbind, M_bind, os_path_exists.
  by rewrite bool_decide_eq_false_2.
Qed.




End CdpickExceptions.

(** ** Facts about [validate] *)

Section Validate.

Lemma startswith_self_app (p b : string) : Str.startswith p (p +:+ b) = true.
Proof.
  induction p as [|c p IH]; [done|]. cbn [String.append Str.startswith].
  by destruct (ascii_dec c c).
Qed.

Lemma validate_accepted {A B} (f : A -> Checked bool) (transform : A -> Checked B)
    (message : string) (value : A) (b : B) :
  validate f transform message value = Accepted b
  <-> transform value = Ok b /\ f value = Ok true.
Proof.
  unfold validate. destruct (transform value) as [b'|text]; [|split; [done|by intros [? _]]].
  destruct (f value) as [[]|text]; split; try done; try (by intros [_ ?]).
  - intros [= ->]. done.
  - by intros [[= ->] _].
Qed.

Lemma validate_positive (message : string) (value : option Z) (r : option Z) :
  validate (X_gt 0) identity message value = Accepted r
  <-> exists n, value = Some n /\ r = Some n /\ (0 < n)%Z.
Proof.
  rewrite validate_accepted. unfold identity, X_gt. split.
  - intros [[= <-] Hf]. destruct value as [n|]; [|done].
    exists n. repeat split. injection Hf as Hf. by apply Z.ltb_lt.
  - intros (n & -> & -> & Hn). split; [done|]. f_equal. by apply Z.ltb_lt.
Qed.

End Validate.

(** ** Facts about the JOIN stage *)

Section Joiner.

Lemma startswith_brace_replace (s : string) :
  Str.startswith "}" (replace_char "%" "{}" s) = Str.startswith "}" s.
Proof.
  destruct s as [|c s]; [done|]. cbn [replace_char].
  destruct (ascii_dec c "%") as [->|Hc]; [done|done].
Qed.

(** After every ['%'] has become ["{}"], the text holds ["{}"] exactly
    if it held ['%'] or ["{}"] before. *)
Lemma substring_in_replace (s : string) :
  substring_in "{}" (replace_char "%" "{}" s)
  = Str.contains "%" s || substring_in "{}" s.
Proof.
  induction s as [|c s IH]; [done|]. cbn [replace_char Str.contains].
  destruct (ascii_dec c "%") as [->|Hc].
  { cbn [String.append substring_in Str.startswith].
    destruct (ascii_dec "{" "{"); [|done]. by destruct (ascii_dec "}" "}"). }
  cbn [substring_in]. rewrite IH.
  assert (Hs : Str.startswith "{}" (String c (replace_char "%" "{}" s))
               = Str.startswith "{}" (String c s)).
  { cbn [Str.startswith]. destruct (ascii_dec "{" c); [|done].
    apply startswith_brace_replace. }
  rewrite Hs.
  by destruct (Str.startswith "{}" (String c s)), (Str.contains "%" s),
       (substring_in "{}" s).
Qed.

Lemma joiner_pattern (join : Data -> M Data) (output : option string) :
  joiner join output
  = {| rname := "joiner";
       maps := [ {| domain := MultipleT Fasta; codomain := SampleT Fasta;
                    function := join |};
                 {| domain := MultipleT Fastq; codomain := SampleT Fastq;
                    function := join |};
                 {| domain := MultipleT Clusters; codomain := SampleT Clusters;
                    function := join |} ]
               ++ (if pattern_output output
                   then [ {| domain := MultipleT PairedFastq;
                             codomain := SampleT PairedFastq; function := join |} ]
                   else []) |}.
Proof.
  unfold joiner, pattern_output. destruct output as [path|]; [|done].
  destruct (Str.truthy path) eqn:Ht; [|done]. cbn [negb orb].
  rewrite substring_in_replace.
  by destruct (Str.contains "%" path || substring_in "{}" path).
Qed.

End Joiner.

(** ** Facts about uniprot2prokka.py *)

Section ProkkaFacts.

Lemma class_run_chars (s : string) : class_only (Prokka.class_run s) = true.
Proof.
  induction s as [|c s IH]; [done|]. cbn [Prokka.class_run].
  destruct (Prokka.name_char c) eqn:Hc; [|done]. cbn [class_only]. by rewrite Hc.
Qed.

Lemma class_only_contains (s : string) (c : ascii) :
  class_only s = true -> Str.contains c s = true -> Prokka.name_char c = true.
Proof.
  induction s as [|x s IH]; [done|]. cbn [class_only Str.contains].
  rewrite andb_true_iff. intros [Hx Hs]. destruct (ascii_dec x c) as [<-|]; auto.
Qed.

Lemma after_prefix_app (p s r : string) :
  Prokka.after_prefix p s = Some r -> s = p +:+ r.
Proof.
  revert s. induction p as [|a p IH]; intros s; [by intros [= ->]|].
  destruct s as [|b s]; [done|]. cbn [Prokka.after_prefix].
  destruct (ascii_dec a b) as [->|]; [|done]. intros Hr. cbn. by rewrite (IH _ Hr).
Qed.

Lemma after_prefix_self (p r : string) : Prokka.after_prefix p (p +:+ r) = Some r.
Proof.
  induction p as [|a p IH]; [done|]. cbn [String.append Prokka.after_prefix].
  by destruct (ascii_dec a a).
Qed.

Lemma match_full_class (s g : string) :
  Prokka.match_full s = Some g ->
  g <> EmptyString /\ class_only g = true /\ exists r, s = "Full=" +:+ g +:+ r.
Proof.
  unfold Prokka.match_full.
  destruct (Prokka.after_prefix "Full=" s) as [rest|] eqn:E; [|done].
  apply after_prefix_app in E as ->.
  pose proof (class_run_chars rest) as Hc.
  assert (Hr : exists r, rest = Prokka.class_run rest +:+ r).
  { clear. induction rest as [|c s [r IH]]; [by exists EmptyString|].
    cbn [Prokka.class_run]. destruct (Prokka.name_char c).
    - exists r. cbn. by rewrite <- IH.
    - by exists (String c s). }
  destruct (Prokka.class_run rest) as [|c g'] eqn:Er; [done|]. intros [= <-].
  split; [done|]. split; [done|]. destruct Hr as [r Hr]. exists r. by rewrite Hr at 1.
Qed.

Lemma prokka_findall_elem (k : nat) (s g : string) :
  g ∈ Prokka.findall_from k s -> exists b, Prokka.match_full b = Some g.
Proof.
  revert k. induction s as [|c s IH]; intros k; [by intros ?%elem_of_nil|].
  destruct k as [|k]; cbn [Prokka.findall_from]; [|by apply IH].
  destruct (Prokka.match_full (String c s)) as [g'|] eqn:E; [|by apply IH].
  intros [->|Hin]%elem_of_cons; [eauto|by eapply IH].
Qed.

Lemma contains_strip (c : ascii) (s : string) :
  Str.contains c (Str.strip s) = true -> Str.contains c s = true.
Proof.
  intros Hc. destruct (strip_infix s) as (a & b & Hs). rewrite Hs.
  rewrite !contains_app, Hc. by destruct (Str.contains c a).
Qed.

Lemma contains_join_inv (c : ascii) (sep : string) (l : list string) :
  Str.contains c (Str.join sep l) = true ->
  Str.contains c sep = true \/ exists x, x ∈ l /\ Str.contains c x = true.
Proof.
  induction l as [|x l IH]; [done|]. destruct l as [|y l].
  - intros Hx. right. exists x. split; [left|done].
  - change (Str.join sep (x :: y :: l)) with (x +:+ sep +:+ Str.join sep (y :: l)).
    rewrite !contains_app, !orb_true_iff. intros [Hx|[Hs|Hr]].
    + right. exists x. split; [left|done].
    + by left.
    + destruct (IH Hr) as [?|(z & Hz & Hc)]; [by left|].
      right. exists z. split; [by right|done].
Qed.

(** The pieces that [sprot_description] joins. *)
Lemma sprot_pieces (description : string) :
  Forall (fun piece => Str.strip piece = piece
                       /\ forall c, Str.contains c piece = true ->
                                    Prokka.name_char c = true)
    (Str.strip <$> Prokka.DESCRIPTION_PATERN description).
Proof.
  apply Forall_forall. intros piece (g & -> & Hg)%list_elem_of_fmap.
  split; [apply strip_idemp|]. intros c Hc%contains_strip.
  destruct (prokka_findall_elem 0 description g Hg) as [b Hb].
  apply match_full_class in Hb as (_ & Hclass & _).
  by apply (class_only_contains g).
Qed.

Lemma match_full_has_eq (s g : string) :
  Prokka.match_full s = Some g -> Str.contains "=" s = true.
Proof.
  intros (_ & _ & r & ->)%match_full_class. cbn [String.append Str.contains].
  repeat (match goal with |- context [ascii_dec ?a ?b] => destruct (ascii_dec a b) end;
          try done).
Qed.

Lemma prokka_findall_none (k : nat) (s : string) :
  Str.contains "=" s = false -> Prokka.findall_from k s = [].
Proof.
  revert k. induction s as [|c s IH]; intros k Hs; [done|].
  assert (Hs' : Str.contains "=" s = false).
  { cbn [Str.contains] in Hs. by destruct (ascii_dec c "="). }
  destruct k as [|k]; cbn [Prokka.findall_from]; [|by apply IH].
  destruct (Prokka.match_full (String c s)) as [g|] eqn:E; [|by apply IH].
  apply match_full_has_eq in E. congruence.
Qed.

Lemma startswith_after_prefix (p s : string) :
  Str.startswith p s = false -> Prokka.after_prefix p s = None.
Proof.
  revert s. induction p as [|a p IH]; intros s; [done|].
  destruct s as [|b s]; [done|]. cbn [Str.startswith Prokka.after_prefix].
  destruct (ascii_dec a b); [apply IH|done].
Qed.

Lemma prokka_findall_no_marker (k : nat) (s : string) :
  substring_in "Full=" s = false -> Prokka.findall_from k s = [].
Proof.
  revert k. induction s as [|c s IH]; intros k Hs; [done|].
  cbn [substring_in] in Hs. apply orb_false_elim in Hs as [Hst Hs].
  destruct k as [|k]; cbn [Prokka.findall_from]; [|by apply IH].
  unfold Prokka.match_full. rewrite (startswith_after_prefix _ _ Hst). by apply IH.
Qed.

Lemma prokka_findall_skip (a q : string) :
  Prokka.findall_from (String.length a) (a +:+ q) = Prokka.findall_from 0 q.
Proof. induction a as [|c a IH]; [done|]. cbn [String.length String.append Prokka.findall_from]. done. Qed.

Lemma class_run_name (n rest : string) :
  class_only n = true -> Prokka.class_run (n +:+ ";" +:+ rest) = n.
Proof.
  induction n as [|c n IH]; [done|]. cbn [class_only]. rewrite andb_true_iff.
  intros [Hc Hn]. remember (";" +:+ rest) as r. cbn [String.append Prokka.class_run].
  by rewrite Hc, IH.
Qed.

Lemma match_full_name (n rest : string) :
  Str.truthy n = true -> class_only n = true ->
  Prokka.match_full ("Full=" +:+ n +:+ ";" +:+ rest) = Some n.
Proof.
  intros Ht Hn. unfold Prokka.match_full.
  rewrite after_prefix_self, class_run_name by done. by destruct n.
Qed.

(** No match starts in text without ['='] that stands before the
    marker. *)
Lemma match_full_before (u r : string) :
  u <> EmptyString -> Str.contains "=" u = false ->
  Prokka.match_full (u +:+ "Full=" +:+ r) = None.
Proof.
  intros Hne Hu. destruct (Prokka.match_full _) as [g|] eqn:E; [|done]. exfalso.
  apply match_full_class in E as (_ & _ & r' & Heq).
  destruct u as [|c1 [|c2 [|c3 [|c4 [|c5 u]]]]]; [done|..];
    cbn [String.append] in Heq; try congruence.
  injection Heq as -> -> -> -> -> _.
  cbn [Str.contains] in Hu.
  repeat (match type of Hu with context [ascii_dec ?a ?b] =>
            destruct (ascii_dec a b) end; try done).
Qed.

Lemma prokka_findall_before (p r : string) :
  Str.contains "=" p = false ->
  Prokka.findall_from 0 (p +:+ "Full=" +:+ r) = Prokka.findall_from 0 ("Full=" +:+ r).
Proof.
  induction p as [|c p IH]; [done|]. intros Hp.
  assert (Hp' : Str.contains "=" p = false).
  { cbn [Str.contains] in Hp. by destruct (ascii_dec c "="). }
  pose proof (match_full_before (String c p) r ltac:(done) Hp) as Hm.
  remember ("Full=" +:+ r) as q. cbn [String.append] in *.
  cbn [Prokka.findall_from]. rewrite Hm. by apply IH.
Qed.

Lemma prokka_findall_semicolon (r : string) :
  Prokka.findall_from 0 (";" +:+ r) = Prokka.findall_from 0 r.
Proof.
  cbn [String.append Prokka.findall_from]. unfold Prokka.match_full.
  cbn [Prokka.after_prefix]. by destruct (ascii_dec "F" ";").
Qed.

Lemma prokka_findall_entry (p n r : string) :
  Str.contains "=" p = false -> Str.truthy n = true -> class_only n = true ->
  Prokka.findall_from 0 (p +:+ "Full=" +:+ n +:+ ";" +:+ r)
  = n :: Prokka.findall_from 0 r.
Proof.
  intros Hp Ht Hn. rewrite prokka_findall_before by done.
  pose proof (match_full_name n r Ht Hn) as Hm.
  pose proof (prokka_findall_skip ("ull=" +:+ n) (";" +:+ r)) as Hs.
  rewrite length_append, append_assoc, prokka_findall_semicolon in Hs.
  cbn [String.length] in Hs. rewrite (Nat.add_comm 4) in Hs.
  remember (n +:+ ";" +:+ r) as q.
  cbn [String.append] in *. cbn [Prokka.findall_from]. rewrite Hm. f_equal.
  exact Hs.
Qed.

Lemma findall_de_line (entries : list (string * string)) (rest : string) :
  Forall (fun entry => wf_entry entry = true) entries ->
  Str.contains "=" rest = false ->
  Prokka.DESCRIPTION_PATERN (de_line entries rest) = snd <$> entries.
Proof.
  intros Hall Hrest. unfold Prokka.DESCRIPTION_PATERN.
  induction Hall as [|[p n] entries He Hall IH]; [by apply prokka_findall_none|].
  unfold wf_entry in He. cbn [fst snd] in He.
  rewrite !andb_true_iff, negb_true_iff in He. destruct He as [[Hp Ht] Hn].
  cbn [de_line foldr fst snd]. fold (de_line entries rest).
  rewrite prokka_findall_entry by done. by rewrite IH.
Qed.

Lemma split_head (sep : ascii) (s : string) :
  exists h rest, Str.split sep s = h :: rest
    /\ Str.contains sep h = false
    /\ (if Str.contains sep s then exists tail, s = h +:+ String sep tail else s = h).
Proof.
  induction s as [|c s (h & rest & Hs & Hh & Hcase)].
  - by exists EmptyString, [].
  - cbn [Str.split Str.contains]. destruct (ascii_dec c sep) as [->|Hc].
    + exists EmptyString, (Str.split sep s). repeat split. by exists s.
    + rewrite Hs. exists (String c h), rest. split; [done|]. split.
      * cbn [Str.contains]. by destruct (ascii_dec c sep).
      * destruct (Str.contains sep s).
        -- destruct Hcase as [tail ->]. by exists tail.
        -- by rewrite Hcase at 1.
Qed.

End ProkkaFacts.

(** * The claims *)

(** ** Cluster report parsing *)

(** C1, as stated, fails: all four lines of the specification's example
    text start with ['>'], so all of them are header lines, and the
    parser yields no cluster at all, with or without [drop_empty]. *)
Lemma spec_text_yields_nothing :
  ~ (drain (parse_cdhit_clusters false (Str.readlines spec_text))
       = Return [["ref"; "seqA"; "seqB"]; ["ref2"]]
     /\ drain (parse_cdhit_clusters true (Str.readlines spec_text))
       = Return [["ref"; "seqA"; "seqB"]]).
Proof. intros [H _]. vm_compute in H. discriminate H. Qed.

(** C1, amended: with header lines in front of the blocks and member
    lines that do not start with ['>'], the report yields
    [[ref; seqA; seqB]; [ref2]] without [drop_empty] and
    [[ref; seqA; seqB]] with it; the specification's own text yields no
    cluster under either setting. *)
Theorem parse_cdhit_clusters_example :
  drain (parse_cdhit_clusters false (Str.readlines cdhit_text))
    = Return [["ref"; "seqA"; "seqB"]; ["ref2"]]
  /\ drain (parse_cdhit_clusters true (Str.readlines cdhit_text))
    = Return [["ref"; "seqA"; "seqB"]]
  /\ drain (parse_cdhit_clusters false (Str.readlines spec_text)) = Return []
  /\ drain (parse_cdhit_clusters true (Str.readlines spec_text)) = Return [].
Proof. repeat split; vm_compute; reflexivity. Qed.

(** C3: for a report made of blocks, each a header line followed by at
    least one member line that carries its identifier between ['>'] and
    ['...'], the parser yields the identifier lists of the blocks, in
    block order and member order; with [drop_empty] the blocks of
    exactly one member are left out, without it every block is kept.
    The stream ends without an exception. *)
Theorem parse_cdhit_clusters_blocks (drop_empty : bool) (blocks : list Block) :
  forallb wf_block blocks = true ->
  parse_cdhit_clusters drop_empty (report_lines blocks)
  = (filter (fun ids => kept drop_empty ids = true) (block_ids <$> blocks), None).
Proof.
  intros Hwf.
  assert (Hall : Forall (fun b => wf_block b = true) blocks).
  { apply Forall_forall. intros b Hb. rewrite forallb_forall in Hwf.
    by apply Hwf, list_elem_of_In. }
  unfold parse_cdhit_clusters.
  rewrite member_groups_blocks by done. by apply transform_all_blocks.
Qed.

Lemma parse_cdhit_clusters_blocks_witness :
  forallb wf_block cdhit_blocks = true
  /\ parse_cdhit_clusters true (report_lines cdhit_blocks) = ([["ref"; "seq.A"]], None)
  /\ parse_cdhit_clusters false (report_lines cdhit_blocks)
     = ([["ref"; "seq.A"]; ["ref2"]], None).
Proof.
  split; [reflexivity|]. split.
  - rewrite (parse_cdhit_clusters_blocks true cdhit_blocks); reflexivity.
  - rewrite (parse_cdhit_clusters_blocks false cdhit_blocks); reflexivity.
Defined.

(** ** The cluster-membership format *)

(** C7: clusters that are not empty and whose identifiers have no tab
    and no newline are read back from the text printed for them exactly
    as they were written; this holds in particular for what the parser
    yields from any report, with or without [drop_empty], whenever the
    identifiers it found have no tab. *)
Theorem read_print_roundtrip :
  (forall clusters : list (list string),
      forallb plain_cluster clusters = true ->
      read_clusters (print_clusters clusters) = clusters)
  /\ (forall (drop_empty : bool) (handle : list string),
        let clusters := (parse_cdhit_clusters drop_empty handle).1 in
        forallb (forallb (fun id => negb (Str.contains Str.tab id))) clusters = true ->
        read_clusters (print_clusters clusters) = clusters).
Proof.
  split.
  - intros clusters Hpl. apply read_print_clusters, Forall_forall.
    intros c Hc. rewrite forallb_forall in Hpl. by apply Hpl, list_elem_of_In.
  - intros d handle clusters Htab. apply read_print_clusters, Forall_forall.
    intros c Hc.
    pose proof (transform_all_newline_free d (member_groups handle)) as Hnl.
    rewrite Forall_forall in Hnl. destruct (Hnl c Hc) as [Hne Hc_nl].
    rewrite forallb_forall in Htab. apply list_elem_of_In, Htab in Hc as Hc_tab.
    unfold plain_cluster. rewrite andb_true_iff. split; [by destruct c|].
    apply forallb_forall. intros id Hid. unfold plain_id.
    rewrite forallb_forall in Hc_tab. rewrite (Hc_tab _ Hid).
    rewrite Forall_forall in Hc_nl. by rewrite (Hc_nl id) by by apply list_elem_of_In.
Qed.

Lemma read_print_roundtrip_witness :
  forallb plain_cluster [["ref"; "seqA"; "seqB"]; ["ref2"]] = true
  /\ read_clusters (print_clusters [["ref"; "seqA"; "seqB"]; ["ref2"]])
     = [["ref"; "seqA"; "seqB"]; ["ref2"]].
Proof.
  split; [reflexivity|].
  apply (proj1 read_print_roundtrip [["ref"; "seqA"; "seqB"]; ["ref2"]]).
  reflexivity.
Defined.

(** ** The clustering invoker *)

(** C2, evaluated: in a batch of three samples, cd-hit exits with
    status 1 for the second one only.  Alone, the first sample gives a
    cluster record; the second makes [cdpick] raise [TypeError], and the
    batch raises it too, so no record at all is returned. *)
Theorem batch_aborts_on_tool_failure :
  (exists sc, (cdpick (demo_env cdhit_text) "/tmp" sample_a None false demo_options
                 demo_world).1 = Return (Some sc))
  /\ (run (demo_env cdhit_text)
        (command "/usr/bin/cd-hit-est-2d" demo_options (files sample_b) "/tmp/tmp1")
        (fs demo_world)).1 = 1%Z
  /\ (cdpick (demo_env cdhit_text) "/tmp" sample_b None false demo_options
        demo_world).1 = Raise TypeError
  /\ (cdpick_multiple (demo_env cdhit_text) "/tmp" false demo_options
        [sample_a; sample_b; sample_c] demo_world).1 = Raise TypeError.
Proof.
  split; [eexists; vm_compute; reflexivity|].
  repeat split; vm_compute; reflexivity.
Qed.

(** C4: after a successful invocation the two files of the tool, its
    sequences and its report, are gone, and they are the only files the
    invoker removed, whether or not an output path was given; the
    returned resource wraps the output path and owns it exactly if no
    output path was given, so that releasing it deletes the file in that
    case only; a given output path, which the unique temporary name
    does not collide with, is not removed and is still there unless it
    is a file that the input sample itself owns. *)
Theorem cdpick_cleanup (env : Env) (tmpdir : string) (input : Sample)
    (output : option string) (drop_empty : bool) (o : CdhitOptions)
    (w w' : World) (sc : Sample) :
  cdpick env tmpdir input output drop_empty o w = (Return (Some sc), w') ->
  let output_ := output_path env tmpdir output w in
  let t := tempout_path env tmpdir output w in
  (fs w' !! t = None /\ fs w' !! (t +:+ ".clstr") = None)
  /\ trace w' = trace w ++ [EvAcquire (name input); EvRemove t;
                            EvRemove (t +:+ ".clstr"); EvRelease (name input)]
  /\ files sc = [output_]
  /\ (delete sc = true <-> output = None)
  /\ (forall w'', fs (release sc w'') !! output_
                  = (if output is None then None else fs w'' !! output_))
  /\ (forall path, output = Some path -> path <> t -> path <> t +:+ ".clstr" ->
        (EvRemove path ∉ [EvAcquire (name input); EvRemove t;
                          EvRemove (t +:+ ".clstr"); EvRelease (name input)])
        /\ (delete input = false \/ path ∉ files input -> is_Some (fs w' !! path))).
Proof.
  intros Hok output_ t. apply cdpick_returned in Hok.
  pose proof (cdpick_body_found _ _ _ _ _ _ _ _ _ Hok) as Hdir.
  rewrite cdpick_world in Hok by done.
  destruct (cdpick_scope env input output _ _ drop_empty o _) as [r w2] eqn:Es.
  cbn [fst snd] in Hok. injection Hok as -> <-.
  apply cdpick_scope_success in Es as (-> & Htr & Ht & Hc & Hout).
  fold output_ t in Htr, Ht, Hc, Hout.
  rewrite fs_release, trace_release, Htr. unfold drop_files.
  split; [|split; [|split; [done|split; [|split]]]].
  - destruct (delete input); [|done].
    rewrite !lookup_foldr_delete, Ht, Hc. by repeat case_decide.
  - assert (Hw : trace (add_event (EvAcquire (name input))
                          (next_rng (if output is None then next_rng w else w)))
                 = trace w ++ [EvAcquire (name input)]) by by destruct output.
    rewrite Hw, <- !app_assoc. done.
  - cbn [delete SampleClusters]. split.
    + by intros ?%bool_decide_eq_true.
    + intros ->. done.
  - intros w''. rewrite fs_release. unfold drop_files. cbn [delete files SampleClusters].
    destruct output.
    + by rewrite bool_decide_eq_false_2.
    + rewrite bool_decide_eq_true_2 by done. cbn [foldr]. by rewrite lookup_delete_eq.
  - intros path -> Hpt Hpc. split.
    + intros Hin. repeat (apply elem_of_cons in Hin as [Hin|Hin]; [congruence|]).
      by apply elem_of_nil in Hin.
    + intros Hkeep. specialize (Hout Hpt Hpc). cbn [output_path] in *.
      destruct (delete input); [|done]. destruct Hkeep as [|Hnin]; [done|].
      rewrite lookup_foldr_delete. by rewrite decide_False.
Qed.

Lemma cdpick_cleanup_witness :
  exists sc w',
    cdpick (demo_env cdhit_text) "/tmp" sample_a (Some "/out/a.clusters") false
      demo_options demo_world = (Return (Some sc), w')
    /\ fs w' !! "/tmp/tmp0" = None /\ fs w' !! "/tmp/tmp0.clstr" = None
    /\ delete sc = false
    /\ is_Some (fs w' !! "/out/a.clusters").
Proof.
  destruct (cdpick (demo_env cdhit_text) "/tmp" sample_a (Some "/out/a.clusters") false
              demo_options demo_world) as [r w'] eqn:E.
  assert (Hr : r = Return (Some (SampleClusters "a" "/out/a.clusters" false))).
  { apply (f_equal fst) in E. vm_compute in E. by rewrite <- E. }
  subst r. eexists _, w'. split; [reflexivity|].
  destruct (cdpick_cleanup _ _ _ _ _ _ _ _ _ E) as ([Ht Hc] & _ & _ & _ & _ & Hout).
  vm_compute in Ht, Hc. repeat split; [exact Ht|exact Hc|].
  apply (Hout "/out/a.clusters"); [reflexivity|vm_compute; discriminate
                                  |vm_compute; discriminate|].
  right. by intros [?|?%elem_of_nil]%elem_of_cons.
Defined.

(** C5, as stated, fails: with a temporary directory that does not
    exist, [cdpick] raises [ValueError] before [with input:] is reached;
    the input is neither acquired nor released, and the file it owns
    stays. *)
Lemma cdpick_missing_tmpdir_no_release :
  let out := cdpick (demo_env cdhit_text) "/nowhere" sample_a None false
               demo_options demo_world in
  out.1 = Raise ValueError
  /\ ~ EvRelease (name sample_a) ∈ trace out.2
  /\ is_Some (fs out.2 !! "/data/a.fa").
Proof.
  intros out.
  assert (Ho : out = (Raise ValueError, demo_world)) by (vm_compute; reflexivity).
  rewrite Ho. split; [done|]. split; [by intros ?%elem_of_nil|].
  by exists ">a".
Qed.

(** C5, amended: once the temporary directory is found, the input is
    acquired, and it is released on every exit from [cdpick], whether
    the call returns a record, returns nothing, or raises; in between
    the invoker only removes files; the files the input owns are gone
    after the call. *)
Theorem cdpick_releases_input (env : Env) (tmpdir : string) (input : Sample)
    (output : option string) (drop_empty : bool) (o : CdhitOptions) (w : World) :
  tmpdir ∈ dirs w \/ is_Some (fs w !! tmpdir) ->
  let out := cdpick env tmpdir input output drop_empty o w in
  (exists evs,
      trace out.2 = trace w ++ [EvAcquire (name input)] ++ evs ++ [EvRelease (name input)]
      /\ forallb is_remove evs = true)
  /\ (delete input = true -> forall path, path ∈ files input -> fs out.2 !! path = None).
Proof.
  intros Hdir out. subst out. unfold cdpick. rewrite fallible_world.
  rewrite cdpick_world by done. cbn [snd].
  set (w1 := add_event _ _).
  destruct (trace_cdpick_scope env input output (output_path env tmpdir output w)
              (tempout_path env tmpdir output w) drop_empty o w1) as (evs & Htr & Hrm).
  split.
  - exists evs. split; [|done]. rewrite trace_release, Htr.
    assert (Hw : trace w1 = trace w ++ [EvAcquire (name input)]) by by destruct output.
    rewrite Hw, <- !app_assoc. done.
  - intros Hown path Hin. rewrite fs_release. unfold drop_files. rewrite Hown.
    rewrite lookup_foldr_delete. by rewrite decide_True.
Qed.

Lemma cdpick_releases_input_witness :
  let out := cdpick (demo_env broken_text) "/tmp" sample_a None false
               demo_options demo_world in
  out.1 = Raise IndexError
  /\ EvRelease "a" ∈ trace out.2
  /\ fs out.2 !! "/data/a.fa" = None.
Proof.
  intros out. split; [vm_compute; reflexivity|].
  destruct (cdpick_releases_input (demo_env broken_text) "/tmp" sample_a None false
              demo_options demo_world) as [(evs & Htr & _) Hfs].
  { left. vm_compute. reflexivity. }
  split.
  - subst out. rewrite Htr. rewrite !elem_of_app. right. right. right. left.
  - apply Hfs; [reflexivity|left].
Defined.

(** C10: a member line that carries no identifier between ['>'] and
    ['...'] is not skipped: the drained parser raises [IndexError]; that
    kind is not among those the wrapper of [cdpick] absorbs, so when
    the report that cd-hit wrote has such a line, [cdpick] raises
    [IndexError] to its caller instead of returning nothing. *)
Theorem missing_identifier_raises :
  (forall (drop_empty : bool) (handle : list string) (l : string),
      l ∈ handle -> is_member_line l -> ~ carries_identifier l ->
      drain (parse_cdhit_clusters drop_empty handle) = Raise IndexError)
  /\ (IndexError ∉ [RuntimeError; FileNotFoundError])
  /\ (forall (env : Env) (tmpdir : string) (input : Sample) (output : option string)
        (drop_empty : bool) (o : CdhitOptions) (w : World) (exe report l : string)
        (files' : gmap string string),
        tmpdir ∈ dirs w \/ is_Some (fs w !! tmpdir) ->
        which env CDHIT = Some exe -> Str.truthy exe = true ->
        let output_ := output_path env tmpdir output w in
        let t := tempout_path env tmpdir output w in
        run env (command exe o (files input) t) (fs w) = (0%Z, files') ->
        files' !! (t +:+ ".clstr") = Some report ->
        creatable env output_ = true -> output_ <> t +:+ ".clstr" ->
        l ∈ Str.readlines report -> is_member_line l -> ~ carries_identifier l ->
        (cdpick env tmpdir input output drop_empty o w).1 = Raise IndexError).
Proof.
  assert (Hkind : IndexError ∉ [RuntimeError; FileNotFoundError]).
  { by intros [?|[?|?%elem_of_nil]%elem_of_cons]%elem_of_cons. }
  split; [|split; [done|]].
  - intros d handle l Hin Hm Hno. unfold drain.
    by rewrite (parse_missing_identifier d handle l).
  - intros env tmpdir input output d o w exe report l files' Hdir Hw He output_ t
      Hrun Hrep Hcr Hne Hin Hm Hno.
    unfold cdpick. apply fallible_passes; [|done].
    rewrite cdpick_world by done. cbn [fst].
    apply (cdpick_scope_raises env input output output_ t exe report d o _ files');
      try done.
    + by destruct output.
    + by apply (parse_missing_identifier d _ l).
Qed.

Lemma missing_identifier_raises_witness :
  drain (parse_cdhit_clusters true (Str.readlines broken_text)) = Raise IndexError
  /\ (cdpick (demo_env broken_text) "/tmp" sample_a None true demo_options
        demo_world).1 = Raise IndexError.
Proof.
  assert (Hin : ("1 >seqA" +:+ nl) ∈ Str.readlines broken_text).
  { vm_compute. do 2 right. left. }
  assert (Hm : is_member_line ("1 >seqA" +:+ nl)) by (split; reflexivity).
  assert (Hno : ~ carries_identifier ("1 >seqA" +:+ nl)).
  { apply no_dot_no_identifier. reflexivity. }
  destruct missing_identifier_raises as (Hparse & _ & Hpick). split.
  - by apply (Hparse true _ ("1 >seqA" +:+ nl)).
  - eapply (Hpick (demo_env broken_text) "/tmp" sample_a None true demo_options
              demo_world "/usr/bin/cd-hit-est-2d" broken_text ("1 >seqA" +:+ nl));
      try done;
      first [ left; vm_compute; reflexivity
            | vm_compute; reflexivity
            | vm_compute; discriminate ].
Defined.

(** ** The pipeline compiler *)

(** C6: if the stages in front of a stage each have an alternative for
    the type carried to them, and that stage has none for the type
    carried to it, then assembling the pipeline fails with
    [TypeMismatch], which names that stage, the type and what the stage
    accepts; the pipeline entry point raises it with the world as it
    was: no function of any stage has been called. *)
Theorem pcompile_type_gap (front : list Router) (r : Router) (back : list Router)
    (initial t : RepType) :
  Forall wf_router front -> carries front initial t -> incompatible r t ->
  pcompile (front ++ r :: back) initial
  = Raise (TypeMismatch (rname r) t (domain <$> maps r))
  /\ (forall (rows : list (string * list string)) (dtype : Format)
        (samples : list Sample) (w : World),
        initial = MultipleT dtype ->
        input_samples (SampleT dtype) rows = Return samples ->
        pipeline (front ++ r :: back) rows dtype w
        = (Raise (TypeMismatch (rname r) t (domain <$> maps r)), w)).
Proof.
  intros Hwf Hc Hgap.
  assert (Hp : pcompile (front ++ r :: back) initial
               = Raise (TypeMismatch (rname r) t (domain <$> maps r))).
  { unfold pcompile. by rewrite (select_maps_gap front r back initial t). }
  split; [done|]. intros rows dtype samples w -> Hs. unfold pipeline.
  destruct (front ++ r :: back) eqn:E; [by destruct front|].
  cbn [_INPUT_DTYPE_DISPATCH]. unfold input_collection. rewrite Hs.
  unfold mbind, PyResult_bind, new_collection. by rewrite Hp.
Qed.

Lemma pcompile_type_gap_witness :
  pipeline [picker pass_on pass_on; trimmer pass_on]
    [("a", ["/data/a.fq"])] Fastq demo_world
  = (Raise (TypeMismatch "trimmer" (MultipleT Clusters) [MultipleT PairedFastq]),
     demo_world).
Proof.
  refine (proj2 (pcompile_type_gap [picker pass_on pass_on] (trimmer pass_on) []
                   (MultipleT Fastq) (MultipleT Clusters) _ _ _)
            [("a", ["/data/a.fq"])] Fastq _ demo_world eq_refl eq_refl).
  - constructor; [|constructor]. unfold wf_router.
    apply (bool_decide_unpack _). vm_compute. exact I.
  - eapply (carries_cons _ _ {| domain := MultipleT Fastq; codomain := MultipleT Clusters;
                                function := pass_on |});
      [cbn; do 3 right; left|reflexivity|constructor].
  - intros m [->|?%elem_of_nil]%elem_of_cons; done.
Defined.

(** ** The filter stage *)

(** C8: the filter stage yields exactly the samples whose count of
    truthy records is at least [nseq], in their order; every other
    sample is released right after it was parsed, before the next one
    is, and the files it owns are deleted.  For counts 0, 3 and 5 and
    [nseq = 3], the samples with counts 3 and 5 are kept, in that order,
    and the files of the first are deleted if it owns them. *)
Theorem size_filt_keeps_large (env : Env) (nseq : Z) (samples : list Sample) (w : World) :
  (let out := size_filt env nseq samples w in
   out.1 = Return (filter (fun s => (nseq <= count_truthy (records env s))%Z) samples)
   /\ trace out.2 = trace w ++ (samples ≫= filter_events env nseq)
   /\ fs out.2 = foldl (fun m s => drop_files s m) (fs w)
                   (filter (fun s => ~ (nseq <= count_truthy (records env s))%Z) samples))
  /\ (forall m, m ∈ maps (sample_filter env nseq) ->
        (function m (Multiple PairedFastq samples) w).1
        = Return (Multiple PairedFastq
                    (filter (fun s => (nseq <= count_truthy (records env s))%Z) samples)))
  /\ (forall s0 s3 s5 : Sample,
        count_truthy (records env s0) = 0%Z ->
        count_truthy (records env s3) = 3%Z ->
        count_truthy (records env s5) = 5%Z ->
        let out := size_filt env 3 [s0; s3; s5] w in
        out.1 = Return [s3; s5]
        /\ trace out.2 = trace w ++ [EvParse (name s0); EvRelease (name s0);
                                     EvParse (name s3); EvParse (name s5)]
        /\ fs out.2 = (if delete s0 then foldr base.delete (fs w) (files s0) else fs w)).
Proof.
  assert (Hkeep : forall l : list Sample,
            filter (fun s => passes env nseq s = true) l
            = filter (fun s => (nseq <= count_truthy (records env s))%Z) l).
  { intros l. apply list_filter_iff. intros s. unfold passes. apply Z.leb_le. }
  assert (Hdrop : forall l : list Sample,
            filter (fun s => passes env nseq s = false) l
            = filter (fun s => ~ (nseq <= count_truthy (records env s))%Z) l).
  { intros l. apply list_filter_iff. intros s. unfold passes.
    rewrite Z.leb_nle. done. }
  split; [|split].
  - cbn zeta. rewrite size_filt_spec, Hkeep, Hdrop. done.
  - intros m [->|?%elem_of_nil]%elem_of_cons; [|done].
    cbn [function lift samples_of]. unfold mbind, M_bind. cbn [lift samples_of].
    rewrite size_filt_spec, Hkeep. done.
  - intros s0 s3 s5 H0 H3 H5. cbn zeta. rewrite size_filt_spec.
    cbn [mbind list_bind foldr]. unfold filter_events, passes.
    rewrite !filter_cons, filter_nil. unfold passes. rewrite H0, H3, H5. cbn.
    done.
Qed.

Lemma size_filt_keeps_large_witness :
  count_truthy (records (demo_env cdhit_text) (reads "low" true)) = 0%Z
  /\ count_truthy (records (demo_env cdhit_text) (reads "mid" false)) = 3%Z
  /\ count_truthy (records (demo_env cdhit_text) (reads "high" false)) = 5%Z
  /\ (size_filt (demo_env cdhit_text) 3
        [reads "low" true; reads "mid" false; reads "high" false] reads_world).1
     = Return [reads "mid" false; reads "high" false]
  /\ fs (size_filt (demo_env cdhit_text) 3
           [reads "low" true; reads "mid" false; reads "high" false] reads_world).2
     = base.delete "/data/low_R1.fq" (base.delete "/data/low_R2.fq" (fs reads_world)).
Proof.
  assert (H0 : count_truthy (records (demo_env cdhit_text) (reads "low" true)) = 0%Z)
    by reflexivity.
  assert (H3 : count_truthy (records (demo_env cdhit_text) (reads "mid" false)) = 3%Z)
    by reflexivity.
  assert (H5 : count_truthy (records (demo_env cdhit_text) (reads "high" false)) = 5%Z)
    by reflexivity.
  destruct (proj2 (proj2 (size_filt_keeps_large (demo_env cdhit_text) 3 [] reads_world))
              (reads "low" true) (reads "mid" false) (reads "high" false) H0 H3 H5)
    as (Hout & _ & Hfs).
  split; [exact H0|]. split; [exact H3|]. split; [exact H5|].
  split; [exact Hout|exact Hfs].
Defined.

(** ** The pipeline entry point *)

(** C9: every sample resource that the entry point builds from the
    rows of the input table has [delete = False]; releasing one leaves
    all files as they are, and so does the filter stage when it drops
    some of them. *)
Theorem input_samples_not_owned (dtype : Format) (rows : list (string * list string))
    (samples : list Sample) :
  input_samples (_INPUT_DTYPE_DISPATCH dtype).1 rows = Return samples ->
  Forall (fun s => delete s = false) samples
  /\ (forall (s : Sample) (w : World), s ∈ samples -> fs (release s w) = fs w)
  /\ (forall (env : Env) (nseq : Z) (w : World),
        fs (size_filt env nseq samples w).2 = fs w).
Proof.
  intros Hs. apply input_samples_delete in Hs as Hall. split; [done|]. split.
  - intros s w Hin. rewrite Forall_forall in Hall.
    rewrite fs_release. unfold drop_files. by rewrite (Hall s Hin).
  - intros env nseq w. rewrite size_filt_spec. cbn [snd fs].
    apply drop_files_not_owned.
    apply Forall_forall. intros s [_ Hin]%list_elem_of_filter.
    rewrite Forall_forall in Hall. by apply Hall.
Qed.

Lemma input_samples_not_owned_witness :
  input_samples (_INPUT_DTYPE_DISPATCH PairedFastq).1
    [("low", ["/data/low_R1.fq"; "/data/low_R2.fq"])]
  = Return [ {| name := "low"; files := ["/data/low_R1.fq"; "/data/low_R2.fq"];
                delete := false; format := PairedFastq |} ]
  /\ fs (size_filt (demo_env cdhit_text) 3
           [ {| name := "low"; files := ["/data/low_R1.fq"; "/data/low_R2.fq"];
                delete := false; format := PairedFastq |} ] reads_world).2
     = fs reads_world.
Proof.
  split; [reflexivity|].
  apply (input_samples_not_owned PairedFastq [("low", ["/data/low_R1.fq"; "/data/low_R2.fq"])]).
  reflexivity.
Defined.

(** * Further properties *)

(** ** picking.py: the identifier pattern *)

(** X1: [SEQID] finds something in a text exactly when the text
    contains ['>'], then at least one character, then ['...'], with no
    newline between the ['>'] and the dots. *)
Theorem SEQID_finds_iff (s : string) :
  SEQID s <> [] <-> carries_identifier s.
Proof. split; [apply SEQID_sound|apply SEQID_complete]. Qed.

Lemma SEQID_finds_iff_witness :
  SEQID "0 9nt, >ref... *" <> [] /\ carries_identifier "0 9nt, >ref... *".
Proof.
  assert (H : SEQID "0 9nt, >ref... *" <> []) by (vm_compute; discriminate).
  split; [exact H|]. by apply (proj1 (SEQID_finds_iff "0 9nt, >ref... *")).
Defined.

(** X2: every identifier that [SEQID] returns is not empty, has no
    newline, and has no three dots after its first character other than
    the closing ones; and behind text without ['>'], a marked
    identifier of that kind is found first, after which the search
    goes on in the rest of the text. *)
Theorem SEQID_marked_identifiers :
  (forall s g : string, g ∈ SEQID s -> valid_seqid g = true)
  /\ (forall p id q : string,
        Str.contains ">" p = false -> valid_seqid id = true ->
        SEQID (p +:+ ">" +:+ id +:+ "..." +:+ q) = id :: SEQID q).
Proof.
  split.
  - intros s g Hg. destruct (findall_elem 0 s g Hg) as [b Hb].
    by apply (match_here_valid_group b).
  - apply SEQID_app.
Qed.

Lemma SEQID_marked_identifiers_witness :
  valid_seqid "seq.1" = true
  /\ SEQID ("1 9nt, " +:+ ">" +:+ "seq.1" +:+ "..." +:+ " at >x...") = ["seq.1"; "x"].
Proof.
  assert (Hin : "seq.1" ∈ SEQID "0 >seq.1... *") by (vm_compute; left).
  pose proof (proj1 SEQID_marked_identifiers _ _ Hin) as Hv.
  split; [exact Hv|].
  rewrite (proj2 SEQID_marked_identifiers "1 9nt, " "seq.1" " at >x..." eq_refl Hv).
  reflexivity.
Defined.

(** ** picking.py: the cluster report parser *)

(** X3: the parser sees only the stripped lines: stripping the lines
    beforehand changes nothing, and a blank line, wherever it stands,
    even between two member lines of one block, changes nothing. *)
Theorem parse_ignores_whitespace :
  (forall (drop_empty : bool) (handle : list string),
      parse_cdhit_clusters drop_empty (Str.strip <$> handle)
      = parse_cdhit_clusters drop_empty handle)
  /\ (forall (drop_empty : bool) (before after : list string) (blank : string),
        Str.strip blank = EmptyString ->
        parse_cdhit_clusters drop_empty (before ++ blank :: after)
        = parse_cdhit_clusters drop_empty (before ++ after)).
Proof.
  split.
  - intros d handle. unfold parse_cdhit_clusters. by rewrite member_groups_strip.
  - intros d before after blank Hb. unfold parse_cdhit_clusters.
    by rewrite member_groups_blank.
Qed.

Lemma parse_ignores_whitespace_witness :
  parse_cdhit_clusters true [">Cluster 0"; "0 >ref..."; "  " +:+ nl; "1 >seqA..."]
  = ([["ref"; "seqA"]], None).
Proof.
  refine (eq_trans (proj2 parse_ignores_whitespace true [">Cluster 0"; "0 >ref..."]
                      ["1 >seqA..."] ("  " +:+ nl) eq_refl) _).
  reflexivity.
Defined.

(** X4: whatever the handle holds, a cluster that the parser yields has
    at least one identifier, at least two with [drop_empty], and each
    identifier is not empty, has no newline and has no three dots
    after its first character. *)
Theorem parse_yields_valid_clusters (drop_empty : bool) (handle : list string) :
  Forall (fun ids => ((if drop_empty then 2 else 1) <= length ids)%nat
                     /\ Forall (fun id => valid_seqid id = true) ids)
         (parse_cdhit_clusters drop_empty handle).1.
Proof. apply transform_all_valid. Qed.

(** X5: for every handle, parsing with [drop_empty] yields the
    clusters that parsing without it yields, less those of a single
    identifier, in the same order, and it ends in the same way, with
    the same exception or with none. *)
Theorem drop_empty_filters (handle : list string) :
  parse_cdhit_clusters true handle
  = (filter (fun ids => (1 < length ids)%nat) (parse_cdhit_clusters false handle).1,
     (parse_cdhit_clusters false handle).2).
Proof. apply transform_all_drop. Qed.

(** X6: draining the parser returns exactly when every member line of
    the handle carries an identifier; if it raises, it raises
    [IndexError]. *)
Theorem parse_returns_iff_identifiers (drop_empty : bool) (handle : list string) :
  (drain (parse_cdhit_clusters drop_empty handle)
     = Return (parse_cdhit_clusters drop_empty handle).1
   <-> forall l, l ∈ handle -> is_member_line l -> carries_identifier l)
  /\ (forall e, drain (parse_cdhit_clusters drop_empty handle) = Raise e -> e = IndexError).
Proof.
  split.
  - rewrite <- (parse_returns_iff drop_empty handle). unfold drain.
    destruct (parse_cdhit_clusters drop_empty handle).2; split; intros H; done.
  - intros e. unfold drain.
    destruct (parse_cdhit_clusters drop_empty handle).2 as [e'|] eqn:E; [|done].
    intros [= <-]. by apply (transform_all_raises drop_empty (member_groups handle)).
Qed.

Lemma parse_returns_iff_identifiers_witness :
  carries_identifier ("1 >seqA..." +:+ nl).
Proof.
  apply (proj1 (proj1 (parse_returns_iff_identifiers false (Str.readlines cdhit_text)))).
  - vm_compute. reflexivity.
  - vm_compute. do 2 right. left.
  - split; reflexivity.
Defined.

(** ** picking.py: the cd-hit wrapper *)



(** X8: the command line has the executable first, the reference
    third and the output path thirteenth; input files beyond the
    second are not passed on, one flag and path are added for each of
    the first two, and none if there is no input file. *)
Theorem command_shape (exe : string) (o : CdhitOptions) (input : list string)
    (output : string) :
  let c := command exe o input output in
  c !! 0%nat = Some exe
  /\ c !! 2%nat = Some (reference o)
  /\ c !! 12%nat = Some output
  /\ length c = (13 + 2 * length (take 2 input))%nat
  /\ c = command exe o (take 2 input) output
  /\ drop 13 c = match input with
                 | [] => []
                 | [reads] => ["-i2"; reads]
                 | forward :: reverse :: _ => ["-i2"; forward; "-j2"; reverse]
                 end.
Proof. destruct input as [|f1 [|f2 rest]]; cbn; done. Qed.

(** ** picking.py: the clustering invoker *)

(** X9: with a temporary directory that does not exist, [cdpick]
    raises [ValueError], which its wrapper lets through, and leaves
    the world as it is: no name is drawn, no command is run and the
    input is not touched. *)
Theorem cdpick_missing_tmpdir (env : Env) (tmpdir : string) (input : Sample)
    (output : option string) (drop_empty : bool) (o : CdhitOptions) (w : World) :
  ~ (tmpdir ∈ dirs w \/ is_Some (fs w !! tmpdir)) ->
  cdpick env tmpdir input output drop_empty o w = (Raise ValueError, w).
Proof. apply cdpick_no_tmpdir. Qed.

Lemma cdpick_missing_tmpdir_witness :
  cdpick (demo_env cdhit_text) "/nowhere" sample_a (Some "/out/a.clusters") true
    demo_options demo_world
  = (Raise ValueError, demo_world).
Proof.
  apply cdpick_missing_tmpdir. intros [Hd|Hf].
  - vm_compute in Hd. discriminate Hd.
  - vm_compute in Hf. destruct Hf as [text Hf]. discriminate Hf.
Defined.

(** X10: when the temporary directory exists and the executable is
    not found or exits with a non-zero status, [cdpick] does not return
    an absent result: it raises [TypeError], for [cdhit] has returned
    nothing and [cdpick] unpacks it; the input has been acquired and
    released, and nothing else was done to the resources. *)
Theorem cdpick_tool_failure_raises (env : Env) (tmpdir : string) (input : Sample)
    (output : option string) (drop_empty : bool) (o : CdhitOptions) (w : World) :
  tmpdir ∈ dirs w \/ is_Some (fs w !! tmpdir) ->
  (forall exe, which env CDHIT = Some exe -> Str.truthy exe = true ->
     (run env (command exe o (files input) (tempout_path env tmpdir output w))
        (fs w)).1 <> 0%Z) ->
  let out := cdpick env tmpdir input output drop_empty o w in
  out.1 = Raise TypeError
  /\ trace out.2 = trace w ++ [EvAcquire (name input); EvRelease (name input)].
Proof.
  intros Hdir Hfail. cbn zeta. unfold cdpick.
  pose proof (cdpick_world env tmpdir input output drop_empty o w Hdir) as Hbody.
  cbn zeta in Hbody.
  destruct (cdpick_entered tmpdir input output w) as [Hfs Htr].
  set (w1 := add_event _ _) in *.
  destruct (cdpick_scope_unpacks_none env input output
              (output_path env tmpdir output w) (tempout_path env tmpdir output w)
              drop_empty o w1) as (w2 & Hs & Ht); [by rewrite Hfs|].
  rewrite Hs in Hbody. cbn [fst snd] in Hbody.
  rewrite (fallible_raises _ _ _ _ _ Hbody not_absorbed_TypeError).
  split; [done|]. cbn [snd]. rewrite trace_release, Ht, Htr.
  by rewrite <- app_assoc.
Qed.

Lemma cdpick_tool_failure_raises_witness :
  let out := cdpick (demo_env cdhit_text) "/tmp" sample_b None false
               demo_options demo_world in
  out.1 = Raise TypeError /\ trace out.2 = [EvAcquire "b"; EvRelease "b"].
Proof.
  apply (cdpick_tool_failure_raises (demo_env cdhit_text) "/tmp" sample_b None false
           demo_options demo_world).
  - left. vm_compute. reflexivity.
  - intros exe _ _. vm_compute. discriminate.
Defined.







(** ** pampi.py: option validation *)

(** X14: [validate] returns the transformed value exactly when the
    transformation returns it and the check returns a true value.  In
    every other case it raises [BadParameter] with a message that
    starts with "validator failed with: ": followed by the configured
    message when the check returns a false value, and by the text of
    the exception when the transformation or the check raises; the
    transformation is tried first. *)
Theorem validate_wraps_errors {A B : Type} (f : A -> Checked bool)
    (transform : A -> Checked B) (message : string) (value : A) :
  (forall b, validate f transform message value = Accepted b
             <-> transform value = Ok b /\ f value = Ok true)
  /\ (forall b, transform value = Ok b -> f value = Ok false ->
        validate f transform message value
        = BadParameter ("validator failed with: " +:+ message))
  /\ (forall text, transform value = Fails text ->
        validate f transform message value
        = BadParameter ("validator failed with: " +:+ text))
  /\ (forall b text, transform value = Ok b -> f value = Fails text ->
        validate f transform message value
        = BadParameter ("validator failed with: " +:+ text))
  /\ (forall m, validate f transform message value = BadParameter m ->
        Str.startswith "validator failed with: " m = true).
Proof.
  split; [intros b; apply validate_accepted|]. unfold validate.
  split; [by intros b -> ->|]. split; [by intros text ->|].
  split; [by intros b text -> ->|].
  intros m. destruct (transform value) as [b|text].
  - destruct (f value) as [[]|text]; [done| |]; intros [= <-].
    + exact (startswith_self_app "validator failed with: " message).
    + exact (startswith_self_app "validator failed with: " text).
  - intros [= <-]. exact (startswith_self_app "validator failed with: " text).
Qed.

Lemma validate_wraps_errors_witness :
  validate_tempdir demo_world "/tmp" = Accepted "/tmp"
  /\ validate_tempdir demo_world "/data/a.fa"
     = BadParameter
         "validator failed with: tempdir is not a directory or does not exist".
Proof.
  pose proof (validate_wraps_errors (fun path => Ok (os_path_isdir path demo_world))
                identity "tempdir is not a directory or does not exist" "/tmp")
    as (Hacc & _).
  pose proof (validate_wraps_errors (fun path => Ok (os_path_isdir path demo_world))
                identity "tempdir is not a directory or does not exist" "/data/a.fa")
    as (_ & Hrej & _).
  split.
  - apply Hacc. split; [reflexivity|]. vm_compute. reflexivity.
  - apply (Hrej "/data/a.fa"); [reflexivity|]. vm_compute. reflexivity.
Defined.

(** X15: the callbacks of [--nseq] and [--threads] accept an integer
    exactly if it is positive, that of [--memory] exactly if it is at
    least 100, and hand it on unchanged; zero is rejected as "nseq is
    negative"; an option that is not given, and so is [None], is
    rejected as well. *)
Theorem numeric_options_validated :
  (forall v r, validate_nseq v = Accepted r
               <-> exists n, v = Some n /\ r = Some n /\ (0 < n)%Z)
  /\ (forall v r, validate_threads v = Accepted r
               <-> exists n, v = Some n /\ r = Some n /\ (0 < n)%Z)
  /\ (forall v r, validate_memory v = Accepted r
               <-> exists n, v = Some n /\ r = Some n /\ (100 <= n)%Z)
  /\ validate_nseq (Some 0%Z) = BadParameter "validator failed with: nseq is negative"
  /\ (forall v, v = None -> exists m, validate_nseq v = BadParameter m).
Proof.
  split; [intros v r; apply validate_positive|].
  split; [intros v r; apply validate_positive|].
  split; [|split; [done|intros v ->; by eexists]].
  intros v r. unfold validate_memory. rewrite validate_accepted.
  unfold identity, X_ge. split.
  - intros [[= <-] Hf]. destruct v as [n|]; [|done].
    exists n. repeat split. injection Hf as Hf. by apply Z.leb_le.
  - intros (n & -> & -> & Hn). split; [done|]. f_equal. by apply Z.leb_le.
Qed.

Lemma numeric_options_validated_witness :
  validate_nseq (Some 3%Z) = Accepted (Some 3%Z)
  /\ validate_memory (Some 1000%Z) = Accepted (Some 1000%Z).
Proof.
  destruct numeric_options_validated as (Hn & _ & Hm & _). split.
  - apply Hn. exists 3%Z. split; [reflexivity|]. split; [reflexivity|lia].
  - apply Hm. exists 1000%Z. split; [reflexivity|]. split; [reflexivity|lia].
Defined.

(** X16: a filter stage built from a count that the callback of
    [--nseq] accepted never keeps a sample without a truthy record:
    such a sample is not in the output collection, whatever else the
    collection holds. *)
Theorem validated_filter_drops_empty (env : Env) (v : option Z) (nseq : Z)
    (samples : list Sample) (w : World) (s : Sample) :
  validate_nseq v = Accepted (Some nseq) ->
  count_truthy (records env s) = 0%Z ->
  exists yielded,
    (size_filt env nseq samples w).1 = Return yielded /\ s ∉ yielded.
Proof.
  intros (n & _ & [= <-] & Hn)%validate_positive Hs.
  rewrite size_filt_spec. eexists. split; [done|].
  intros [Hp _]%list_elem_of_filter. unfold passes in Hp.
  apply Z.leb_le in Hp. lia.
Qed.

Lemma validated_filter_drops_empty_witness :
  exists yielded,
    (size_filt (demo_env cdhit_text) 1
       [reads "low" true; reads "mid" false] reads_world).1 = Return yielded
    /\ reads "low" true ∉ yielded.
Proof.
  apply (validated_filter_drops_empty (demo_env cdhit_text) (Some 1%Z) 1
           [reads "low" true; reads "mid" false] reads_world (reads "low" true));
    reflexivity.
Defined.



(** ** pampi.py: the JOIN stage *)

(** X18: the JOIN stage always has the alternatives for collections of
    FASTA, FASTQ and cluster samples, each giving one sample of the
    same format; it has the alternative for paired-end FASTQ exactly
    when the output is absent, empty, or a pattern that holds ['%'] or
    a pair of braces; no two of its alternatives share an input type. *)
Theorem joiner_alternatives (join : Data -> M Data) (output : option string) :
  (forall t, t ∈ (domain <$> maps (joiner join output))
             <-> t ∈ [MultipleT Fasta; MultipleT Fastq; MultipleT Clusters]
                 \/ (t = MultipleT PairedFastq /\ pattern_output output = true))
  /\ Forall (fun m => exists f, domain m = MultipleT f /\ codomain m = SampleT f)
       (maps (joiner join output))
  /\ wf_router (joiner join output).
Proof.
  rewrite joiner_pattern. unfold wf_router. cbn [maps rname].
  destruct (pattern_output output); cbn.
  - split; [|split].
    + intros t. rewrite !elem_of_cons, !elem_of_nil. intuition congruence.
    + repeat constructor; by eexists.
    + apply (bool_decide_unpack _). vm_compute. exact I.
  - split; [|split].
    + intros t. rewrite !elem_of_cons, !elem_of_nil. intuition congruence.
    + repeat constructor; by eexists.
    + apply (bool_decide_unpack _). vm_compute. exact I.
Qed.

Lemma joiner_alternatives_witness :
  MultipleT PairedFastq ∈ (domain <$> maps (joiner pass_on (Some "/out/joined-%.fastq")))
  /\ ~ MultipleT PairedFastq ∈ (domain <$> maps (joiner pass_on (Some "/out/joined.fastq"))).
Proof.
  split.
  - apply (proj1 (joiner_alternatives pass_on (Some "/out/joined-%.fastq"))).
    right. split; reflexivity.
  - intros [Hin|[_ Hp]]%(proj1 (joiner_alternatives pass_on (Some "/out/joined.fastq"))).
    + repeat (apply elem_of_cons in Hin as [Hin|Hin]; [discriminate Hin|]).
      by apply elem_of_nil in Hin.
    + vm_compute in Hp. discriminate Hp.
Defined.

(** ** uniprot2prokka.py *)

(** X19: a description in which "Full=" does not occur gives the empty
    text. *)
Theorem sprot_description_no_marker (description : string) :
  substring_in "Full=" description = false ->
  Prokka.sprot_description description = EmptyString.
Proof.
  intros Hno. unfold Prokka.sprot_description, Prokka.DESCRIPTION_PATERN.
  by rewrite prokka_findall_no_marker.
Qed.

Lemma sprot_description_no_marker_witness :
  Prokka.sprot_description "SubName: hypothetical protein;" = EmptyString.
Proof. apply sprot_description_no_marker. reflexivity. Defined.

(** X20: what [sprot_description] returns is made of pieces joined by
    [';']; a piece has no white space at either end and only letters,
    digits, white space and the characters [-()/,.:] in it.  So every
    character of the result is one of these or [';']. *)
Theorem sprot_description_characters (description : string) :
  (exists pieces,
      Prokka.sprot_description description = Str.join ";" pieces
      /\ Forall (fun piece => Str.strip piece = piece
                              /\ class_only piece = true) pieces)
  /\ (forall c, Str.contains c (Prokka.sprot_description description) = true ->
                Prokka.name_char c = true \/ c = ";"%char).
Proof.
  pose proof (sprot_pieces description) as Hp. split.
  - eexists. split; [reflexivity|]. eapply Forall_impl; [exact Hp|].
    intros piece [Hs Hc]. split; [done|].
    clear -Hc. induction piece as [|x piece IH]; [done|]. cbn [class_only].
    rewrite (Hc x) by (cbn [Str.contains]; by destruct (ascii_dec x x)).
    apply IH. intros c Hin. apply Hc. cbn [Str.contains].
    by destruct (ascii_dec x c).
  - intros c [Hsep|(piece & Hin & Hc)]%contains_join_inv.
    + right. cbn [Str.contains] in Hsep. by destruct (ascii_dec ";" c).
    + left. rewrite Forall_forall in Hp. by apply (Hp piece Hin).
Qed.

Lemma sprot_description_characters_witness :
  Str.contains "~" (Prokka.sprot_description "RecName: Full=A~B; AltName: Full=C;")
  = false.
Proof.
  destruct (Str.contains "~" _) eqn:E; [|reflexivity].
  destruct (proj2 (sprot_description_characters _) _ E) as [H|H]; discriminate H.
Defined.

(** X21: for a description made of entries, each some text without
    ['='], then "Full=", a name of characters of the class, and [';'],
    followed by a rest without ['='], [sprot_description] gives the
    names of the entries, stripped, in their order, joined by [';']. *)
Theorem sprot_description_de_line (entries : list (string * string)) (rest : string) :
  forallb wf_entry entries = true ->
  Str.contains "=" rest = false ->
  Prokka.sprot_description (de_line entries rest)
  = Str.join ";" ((fun entry => Str.strip entry.2) <$> entries).
Proof.
  intros Hwf Hrest. unfold Prokka.sprot_description.
  rewrite findall_de_line; [by rewrite <- list_fmap_compose|..|done].
  apply Forall_forall. intros e He. rewrite forallb_forall in Hwf.
  by apply Hwf, list_elem_of_In.
Qed.

Lemma sprot_description_de_line_witness :
  Prokka.sprot_description
    "RecName: Full=Protein kinase C; AltName: Full=PKC (EC 2.7.11.13) ; Flags: Precursor;"
  = "Protein kinase C;PKC (EC 2.7.11.13)".
Proof.
  refine (eq_trans (sprot_description_de_line
                      [("RecName: ", "Protein kinase C");
                       (" AltName: ", "PKC (EC 2.7.11.13) ")]
                      " Flags: Precursor;" eq_refl eq_refl) _).
  reflexivity.
Defined.

(** X22: [toprokka] keeps the sequence and empties the name and the
    description; the new id is the old id, [" ~~~"], the name up to its
    first underscore, ["~~~"] and the description of
    [sprot_description]; the part taken from the name has no
    underscore, and it is the whole name if the name has none. *)
Theorem toprokka_fields (srec : Prokka.SeqRecord) :
  exists gene,
    Prokka.toprokka srec
    = {| Prokka.seq := Prokka.seq srec;
         Prokka.id := Prokka.id srec +:+ " ~~~" +:+ gene +:+ "~~~"
                      +:+ Prokka.sprot_description (Prokka.description srec);
         Prokka.name := EmptyString;
         Prokka.description := EmptyString |}
    /\ Str.contains "_" gene = false
    /\ (if Str.contains "_" (Prokka.name srec)
        then exists species, Prokka.name srec = gene +:+ String "_" species
        else Prokka.name srec = gene).
Proof.
  destruct (split_head "_" (Prokka.name srec)) as (h & rest & Hs & Hh & Hcase).
  exists h. split; [|done]. unfold Prokka.toprokka, Prokka.first_field.
  by rewrite Hs.
Qed.
